(** * Bioreactor_Multifidelity: sequential PINN training and the piecewise model

    A shallow embedding of [examples/PINN/scripts/Bioreactor_Multifidelity.py].

    Conventions of the embedding.
    - Python floats that hold times and states are exact rationals ([Q]); the
      tolerance [1e-13] of [MultiNetwork.eval] is the rational [1/10^13].  The
      module [Float64] at the end re-runs the index computation of [eval] on
      IEEE binary64 values at the inputs the theorems single out.
    - [np.exp] in [Epoch_Decay] is the real exponential ([Reals]).
    - Network objects live in a store ([heap]) addressed by locations, so that
      [net = net_] is aliasing and [model()] is allocation.
    - The framework calls (fits, network evaluation, model I/O) are parameters
      of the development; each may raise. *)

From Stdlib Require Import ZArith QArith Qround Lia.
From Stdlib Require Lqa Lra.
From Stdlib Require Import Reals.
From Stdlib Require Import PrimFloat FloatOps SpecFloat.
From Stdlib Require Uint63.
From Stdlib Require Qreals.
From stdpp Require Import gmap strings pretty list.

Close Scope Q_scope.
Close Scope R_scope.
Local Open Scope Z_scope.

(** ** Script-level constants (lines 42-55) *)

Module Config.

Definition N : Z := 100.
Definition n : Z := 100.

Definition t_max : Q := 72.0%Q.
Definition n_intervals : Z := 72.
Definition delta_t : Q := (t_max / inject_Z n_intervals)%Q.

Definition X0 : Q := 0.05%Q.
Definition P0 : Q := 0.00%Q.
Definition S0 : Q := 10.00%Q.
Definition V0 : Q := 1.00%Q.

(** [state_t = np.array([X0, P0, S0, V0])] *)
Definition state_t0 : list Q := [X0; P0; S0; V0].

(** The tolerance subtracted in [MultiNetwork.eval]. *)
Definition eps : Q := 1e-13%Q.

End Config.

(** ** Exceptions and results *)

Inductive exn : Type :=
| AttributeError (attr : string)
| IndexError
| ValueError
| LibraryError (what : string).

Inductive result (A : Type) : Type :=
| Ok (a : A)
| Raise (e : exn).
Arguments Ok {A} a.
Arguments Raise {A} e.

Definition rbind {A B} (r : result A) (k : A -> result B) : result B :=
  match r with
  | Ok a => k a
  | Raise e => Raise e
  end.

(** A list comprehension whose body may raise: elements are evaluated from
    left to right and the first exception wins. *)
Fixpoint rmap {A B} (f : A -> result B) (l : list A) : result (list B) :=
  match l with
  | [] => Ok []
  | x :: l' => rbind (f x) (fun y => rbind (rmap f l') (fun ys => Ok (y :: ys)))
  end.

(** ** Numeric helpers of [MultiNetwork.eval] *)

Definition Qltb (x y : Q) : bool := negb (Qle_bool y x).

(** [x.astype(int)]: conversion of a float to an integer truncates towards
    zero. *)
Definition astype_int (x : Q) : Z := Z.quot (Qnum x) (Z.pos (Qden x)).

(** [np.floor(x).astype(int)] *)
Definition np_floor (x : Q) : Z := Qfloor x.

(** One entry of
    [np.where(f > 0, np.floor(f - 1e-13).astype(int), f.astype(int))]. *)
Definition eval_index (f : Q) : Z :=
  if Qltb 0 f then np_floor (f - Config.eps)%Q else astype_int f.

(** [np.linspace(start, stop, num)] with [num >= 2]. *)
Definition linspace (start stop : Q) (num : nat) : list Q :=
  let step := ((stop - start) / inject_Z (Z.of_nat (num - 1)))%Q in
  map (fun k => (start + inject_Z (Z.of_nat k) * step)%Q) (seq 0 num).

(** ** Python objects *)

(** Locations of network objects in the store. *)
Abbreviation Loc := nat (only parsing).

Inductive PyVal : Type :=
| VNet (l : Loc)
| VFloat (x : Q)
| VStr (s : string).

(** [MultiNetwork] instance: its attribute dictionary and the registry of
    sub-modules filled by [add_module]. *)
Record MultiNetwork : Type := mkMultiNetwork {
  attrs : gmap string PyVal;
  modules : gmap string Loc
}.

(** [f"worker_{index}"] *)
Definition worker_name (index : Z) : string := "worker_" +:+ pretty index.

Definition getattr (self : MultiNetwork) (name : string) : result PyVal :=
  match attrs self !! name with
  | Some v => Ok v
  | None => Raise (AttributeError name)
  end.

Definition setattr (self : MultiNetwork) (name : string) (v : PyVal) : MultiNetwork :=
  mkMultiNetwork (<[name := v]> (attrs self)) (modules self).

Definition add_module (self : MultiNetwork) (name : string) (net : Loc) : MultiNetwork :=
  mkMultiNetwork (attrs self) (<[name := net]> (modules self)).

(** [MultiNetwork.set_network] (lines 228-232) *)
Definition set_network (self : MultiNetwork) (net : Loc) (index : Z) : MultiNetwork :=
  let self := setattr self (worker_name index) (VNet net) in
  add_module self (worker_name index) net.

(** [for i, model in enumerate(models_list): self.set_network(net=model, index=i)] *)
Fixpoint set_networks (self : MultiNetwork) (i : Z) (models_list : list Loc) : MultiNetwork :=
  match models_list with
  | [] => self
  | model :: rest => set_networks (set_network self model i) (i + 1) rest
  end.

(** [MultiNetwork.__init__] (lines 217-226) *)
Definition MultiNetwork_init (models_list : list Loc) (delta_t : Q) (device : string)
  : MultiNetwork :=
  let self := mkMultiNetwork ∅ ∅ in
  let self := set_networks self 0 models_list in
  let self := setattr self "delta_t" (VFloat delta_t) in
  setattr self "device" (VStr device).

(** ** Evaluation of the piecewise model *)

Section Eval.

(** Parameters of a network object ... *)
Variable Weights : Type.
(** ... and [NetworkTemplate.eval] on a column of times: one output row per
    input row when it succeeds. *)
Variable net_eval : Weights -> list Q -> result (list (list Q)).

(** [MultiNetwork._eval_interval] (lines 234-237): [idata] is one row of
    the shifted input, reshaped to a 1x1 column. *)
Definition _eval_interval (self : MultiNetwork) (heap : gmap Loc Weights)
    (index : Z) (idata : Q) : result (list (list Q)) :=
  let input_data := [idata] in
  rbind (getattr self (worker_name index)) (fun w =>
    match w with
    | VNet l =>
        match heap !! l with
        | Some weights => net_eval weights input_data
        | None => Raise (AttributeError "eval")
        end
    | _ => Raise (AttributeError "eval")
    end).

(** [np.vstack] refuses an empty sequence. *)
Definition np_vstack (blocks : list (list (list Q))) : result (list (list Q)) :=
  match blocks with
  | [] => Raise ValueError
  | _ => Ok (concat blocks)
  end.

Definition eval_indices (input_data : list Q) : list Z :=
  let eval_indices_float := map (fun t => (t / Config.delta_t)%Q) input_data in
  map eval_index eval_indices_float.

(** [MultiNetwork.eval] (lines 239-251).  The indices are computed with the
    enclosing [delta_t], the offsets with the attribute [self.delta_t]. *)
Definition eval (self : MultiNetwork) (heap : gmap Loc Weights) (input_data : list Q)
  : result (list (list Q)) :=
  let eval_indices := eval_indices input_data in
  rbind (getattr self "delta_t") (fun d =>
    match d with
    | VFloat self_delta_t =>
        let input_data :=
          zip_with (fun t i => (t - self_delta_t * inject_Z i)%Q) input_data eval_indices in
        rbind (rmap (fun '(i, idata) => _eval_interval self heap i idata)
                    (zip eval_indices input_data))
              np_vstack
    | _ => Raise (AttributeError "delta_t")
    end).

End Eval.

Arguments _eval_interval {Weights} net_eval self heap index idata.
Arguments eval {Weights} net_eval self heap input_data.

(** ** The epoch budget of the first-order optimizer (lines 95-107) *)

Module Decay.

Definition n_epochs_ini : Z := 5000.
Definition n_epochs_min : Z := 500.
Definition Epoch_Tau : R := 3%R.

(** [int(x)] on a float truncates towards zero. *)
Definition py_int (x : R) : Z :=
  if Rle_dec 0 x then Zfloor x else (- Zfloor (- x))%Z.

(** The float computed on line 101. *)
Definition n_epochs_iter (iteration_number : Z) : R :=
  (IZR n_epochs_ini * exp (IZR (- iteration_number) / Epoch_Tau))%R.

(** [Epoch_Decay]; the two [print] calls are left out. *)
Definition Epoch_Decay (iteration_number : Z) : Z :=
  if iteration_number <? 100 then
    let n_epochs_iter := n_epochs_iter iteration_number in
    let n_epochs := py_int (Rmax n_epochs_iter (IZR n_epochs_min)) in
    n_epochs
  else
    let n_epochs := n_epochs_min in
    n_epochs.

End Decay.


(** ** Auxiliary notions used in the statements *)

(** The parameters of the sub-network registered as [worker_{index}]. *)
Definition worker {Weights} (self : MultiNetwork) (heap : gmap Loc Weights)
    (index : Z) : option Weights :=
  match attrs self !! worker_name index with
  | Some (VNet l) => heap !! l
  | _ => None
  end.

(** The index [eval] computes for the time [t]. *)
Definition route (t : Q) : Z := eval_index (t / Config.delta_t)%Q.

(** The time at which the selected sub-network is evaluated. *)
Definition shifted (t : Q) : Q := (t - Config.delta_t * inject_Z (route t))%Q.

(** The part of the time axis covered by interval [i]: the offset that
    [eval] subtracts (line 248) and the training grid [[0, delta_t]]
    (line 275). *)
Definition interval_lo (i : Z) : Q := (Config.delta_t * inject_Z i)%Q.
Definition interval_hi (i : Z) : Q := (interval_lo i + Config.delta_t)%Q.

(** A concrete piecewise model: 72 sub-networks, the one registered as
    [worker_i] answers every time [t] with the row [[i; t]]. *)
Module Demo.

Definition echo (w : Z) (input_data : list Q) : result (list (list Q)) :=
  Ok (map (fun t => [inject_Z w; Qred t]) input_data).

Definition models_list : list Loc := seq 1 72.

Definition heap : gmap Loc Z :=
  list_to_map (map (fun l => (l, Z.of_nat l - 1)) models_list).

Definition multi_net : MultiNetwork :=
  MultiNetwork_init models_list Config.delta_t "cpu".

End Demo.

(** ** The index computation on binary64 values

    The same expressions as in [eval_index], on IEEE double precision
    numbers, for checking the rational model at individual inputs. *)
Module Float64.

Definition to_Z (round_down : bool) (x : float) : option Z :=
  match Prim2SF x with
  | S754_zero _ => Some 0
  | S754_finite s m e =>
      let v := if s then Z.neg m else Z.pos m in
      Some (if 0 <=? e then Z.shiftl v e
            else if round_down then Z.shiftr v (- e)
            else Z.quot v (2 ^ (- e)))
  | _ => None
  end.

(** [np.floor(x).astype(int)] *)
Definition np_floor : float -> option Z := to_Z true.

(** [x.astype(int)] *)
Definition astype_int : float -> option Z := to_Z false.

Definition t_max : float := 72%float.
Definition delta_t : float := (t_max / 72)%float.

#[warnings="-inexact-float"]
Definition eps : float := 1e-13%float.

Definition eval_index (t : float) : option Z :=
  let f := (t / delta_t)%float in
  if (0 <? f)%float then np_floor (f - eps)%float else astype_int f.

(** The integer-valued double [k], for [0 <= k < 2^53]. *)
Definition of_Z (k : Z) : float := PrimFloat.of_uint63 (Uint63.of_Z k).

End Float64.

(** Rational lower bounds of the exponential, by repeated squaring of
    [1 + x/2^24 <= exp (x/2^24)] with rounding towards zero. *)
Module ExpBound.

Definition round_dn (q : Q) : Q :=
  Qmake (Qfloor (q * inject_Z (2 ^ 64))%Q) (2 ^ 64)%positive.

Fixpoint sq_dn (n : nat) (q : Q) : Q :=
  match n with
  | O => q
  | S n' => sq_dn n' (round_dn (q * q)%Q)
  end.

Definition exp_lb (x : Q) : Q := sq_dn 24 (1 + x * (1 # 16777216))%Q.

(** The values of [Epoch_Decay] before it reaches its minimum. *)
Definition table : list Z := [5000; 3582; 2567; 1839; 1317; 944; 676].

End ExpBound.

(** * Properties *)

(** ** Arithmetic of the index computation *)

Section IndexArithmetic.
Import Lqa.
Local Open Scope Q_scope.

Lemma Qltb_true (x y : Q) : Qltb x y = true <-> x < y.
Proof.
  unfold Qltb. rewrite negb_true_iff. split.
  - intros H. apply Qnot_le_lt. intros Hle.
    apply Qle_bool_iff in Hle. congruence.
  - intros H. destruct (Qle_bool y x) eqn:E; [|reflexivity].
    apply Qle_bool_iff in E. lra.
Qed.

Lemma Qltb_false (x y : Q) : Qltb x y = false <-> y <= x.
Proof.
  unfold Qltb. rewrite negb_false_iff. apply Qle_bool_iff.
Qed.

Lemma delta_t_one : Config.delta_t == 1.
Proof. reflexivity. Qed.

Lemma t_max_val : Config.t_max == 72.
Proof. reflexivity. Qed.

Lemma eps_val : Config.eps == 1 # 10000000000000.
Proof. reflexivity. Qed.

Lemma div_delta_t (t : Q) : t / Config.delta_t == t.
Proof. rewrite delta_t_one. field. Qed.


Lemma eval_index_pos (f : Q) :
  0 < f ->
  inject_Z (eval_index f) <= f - Config.eps /\
  f - Config.eps < inject_Z (eval_index f) + 1.
Proof.
  intros Hf. unfold eval_index.
  apply Qltb_true in Hf. rewrite Hf. unfold np_floor.
  pose proof (Qfloor_le (f - Config.eps)) as H1.
  pose proof (Qlt_floor (f - Config.eps)) as H2.
  rewrite inject_Z_plus in H2. change (inject_Z 1) with 1 in H2.
  split; lra.
Qed.


Lemma eval_index_zero (f : Q) : f == 0 -> eval_index f = 0%Z.
Proof.
  intros Hf. unfold eval_index.
  assert (Hb : Qltb 0 f = false) by (apply Qltb_false; lra).
  rewrite Hb. unfold astype_int.
  assert (Qnum f = 0%Z) as ->.
  { unfold Qeq in Hf. simpl in Hf. lia. }
  reflexivity.
Qed.

(** Integers are separated by at least one. *)
Lemma inject_Z_lt_inv (a b : Z) : inject_Z a < inject_Z b -> (a < b)%Z.
Proof. rewrite <- Zlt_Qlt. trivial. Qed.

Lemma inject_Z_le_inv (a b : Z) : inject_Z a <= inject_Z b -> (a <= b)%Z.
Proof. rewrite <- Zle_Qle. trivial. Qed.

Lemma inject_Z_succ (a : Z) : inject_Z (a + 1) == inject_Z a + 1.
Proof. rewrite inject_Z_plus. reflexivity. Qed.

End IndexArithmetic.

(** ** Routing in [MultiNetwork.eval] *)

Section Routing.
Import Lqa.

Context {Weights : Type} (net_eval : Weights -> list Q -> result (list (list Q))).

Lemma rmap_zip_indices {B} (F : Z -> Q -> result B) (g : Q -> Z) (h : Q -> Z -> Q)
    (ts : list Q) :
  rmap (fun '(i, idata) => F i idata) (zip (map g ts) (zip_with h ts (map g ts)))
  = rmap (fun t => F (g t) (h t (g t))) ts.
Proof.
  induction ts as [|t ts IH]; simpl; [reflexivity|].
  now rewrite IH.
Qed.

(** [eval] evaluates, for each input time in turn, the sub-network selected by
    [route] at the time [shifted], and stacks the blocks in that order. *)
Lemma eval_unfold (self : MultiNetwork) (heap : gmap Loc Weights) (ts : list Q) :
  attrs self !! "delta_t" = Some (VFloat Config.delta_t) ->
  eval net_eval self heap ts
  = rbind (rmap (fun t => _eval_interval net_eval self heap (route t) (shifted t)) ts)
          np_vstack.
Proof.
  intros Hd. unfold eval, getattr. rewrite Hd. simpl.
  unfold eval_indices. rewrite map_map.
  rewrite (rmap_zip_indices (_eval_interval net_eval self heap)
             (fun t => eval_index (t / Config.delta_t)%Q)
             (fun t i => (t - Config.delta_t * inject_Z i)%Q)).
  reflexivity.
Qed.

Lemma eval_interval_worker (self : MultiNetwork) (heap : gmap Loc Weights)
    (i : Z) (s : Q) (w : Weights) :
  worker self heap i = Some w ->
  _eval_interval net_eval self heap i s = net_eval w [s].
Proof.
  unfold worker, _eval_interval, getattr.
  destruct (attrs self !! worker_name i) as [[l| |]|]; try discriminate.
  intros H. cbn. now rewrite H.
Qed.


Local Open Scope Q_scope.

Lemma route_pos (t : Q) :
  0 < t ->
  inject_Z (route t) + Config.eps <= t /\ t < inject_Z (route t) + 1 + Config.eps.
Proof.
  intros Ht. unfold route.
  pose proof (div_delta_t t) as E.
  set (f := t / Config.delta_t) in *.
  assert (Hf : 0 < f) by lra.
  destruct (eval_index_pos _ Hf) as [H1 H2]. split; lra.
Qed.


Lemma route_zero (t : Q) : t == 0 -> route t = 0%Z.
Proof.
  intros Ht. unfold route. apply eval_index_zero.
  rewrite div_delta_t. exact Ht.
Qed.

End Routing.

Section RoutingTheorems.
Import Lqa.

Context {Weights : Type} (net_eval : Weights -> list Q -> result (list (list Q))).

Local Open Scope Q_scope.



Lemma route_in_range (t : Q) :
  t == 0 \/ (Config.eps * Config.delta_t <= t /\ t <= Config.t_max) ->
  (0 <= route t < Config.n_intervals)%Z.
Proof.
  pose proof delta_t_one as Hd. pose proof eps_val as He.
  pose proof t_max_val as Hm.
  intros [Ht|[Hlo Hhi]].
  - rewrite (route_zero t Ht). unfold Config.n_intervals. lia.
  - rewrite Hd in Hlo.
    assert (Hpos : 0 < t) by lra.
    destruct (route_pos t Hpos) as [H1 H2].
    unfold Config.n_intervals. split.
    + assert (H : inject_Z (-1) < inject_Z (route t)).
      { change (inject_Z (-1)) with (-1). lra. }
      apply inject_Z_lt_inv in H. lia.
    + apply inject_Z_lt_inv. change (inject_Z 72) with 72. lra.
Qed.



End RoutingTheorems.

(** ** The registry of sub-networks *)

Lemma worker_name_inj (i j : Z) : worker_name i = worker_name j -> i = j.
Proof.
  unfold worker_name. intros H.
  apply String.app_inj in H. now apply pretty_Z_inj in H.
Qed.

Lemma worker_name_not_delta_t (i : Z) : worker_name i <> "delta_t".
Proof. unfold worker_name. simpl. discriminate. Qed.

Lemma worker_name_not_device (i : Z) : worker_name i <> "device".
Proof. unfold worker_name. simpl. discriminate. Qed.

Lemma set_network_attrs (self : MultiNetwork) (net : Loc) (index : Z) (name : string) :
  attrs (set_network self net index) !! name
  = if decide (worker_name index = name) then Some (VNet net) else attrs self !! name.
Proof. unfold set_network, add_module, setattr. simpl. apply lookup_insert. Qed.

Lemma set_network_modules (self : MultiNetwork) (net : Loc) (index : Z) (name : string) :
  modules (set_network self net index) !! name
  = if decide (worker_name index = name) then Some net else modules self !! name.
Proof. unfold set_network, add_module, setattr. simpl. apply lookup_insert. Qed.

(** C8: [set_network(net, index)] changes the slot [worker_{index}] and nothing
    else.  Every other attribute and registered module, in particular
    [worker_j] for [j <> index], [delta_t] and [device], is as before; after the
    call the attribute [worker_{index}] and the registered module
    [worker_{index}] are both the object [net]. *)
Theorem set_network_frame (self : MultiNetwork) (net : Loc) (index j : Z) :
  j <> index ->
  let self' := set_network self net index in
  getattr self' (worker_name j) = getattr self (worker_name j)
  /\ modules self' !! worker_name j = modules self !! worker_name j
  /\ getattr self' (worker_name index) = Ok (VNet net)
  /\ modules self' !! worker_name index = Some net
  /\ getattr self' "delta_t" = getattr self "delta_t"
  /\ getattr self' "device" = getattr self "device"
  /\ (forall name : string, name <> worker_name index ->
        attrs self' !! name = attrs self !! name
        /\ modules self' !! name = modules self !! name).
Proof.
  intros Hj self'. subst self'.
  assert (Hframe : forall name : string, name <> worker_name index ->
            attrs (set_network self net index) !! name = attrs self !! name
            /\ modules (set_network self net index) !! name = modules self !! name).
  { intros name Hne. rewrite set_network_attrs, set_network_modules.
    destruct (decide (worker_name index = name)); [congruence|]. split; reflexivity. }
  assert (Hjn : worker_name j <> worker_name index).
  { intros E. apply worker_name_inj in E. contradiction. }
  unfold getattr.
  destruct (Hframe _ Hjn) as [-> ->].
  destruct (Hframe "delta_t") as [-> _].
  { intros E. symmetry in E. now apply worker_name_not_delta_t in E. }
  destruct (Hframe "device") as [-> _].
  { intros E. symmetry in E. now apply worker_name_not_device in E. }
  rewrite set_network_attrs, set_network_modules.
  destruct (decide (worker_name index = worker_name index)); [|contradiction].
  repeat split; try reflexivity. all: now apply Hframe.
Qed.

Lemma set_network_frame_witness :
  let self' := set_network Demo.multi_net 99%nat 3 in
  getattr self' (worker_name 5) = getattr Demo.multi_net (worker_name 5)
  /\ modules self' !! worker_name 5 = modules Demo.multi_net !! worker_name 5
  /\ getattr self' (worker_name 3) = Ok (VNet 99%nat)
  /\ modules self' !! worker_name 3 = Some 99%nat
  /\ getattr self' "delta_t" = getattr Demo.multi_net "delta_t"
  /\ getattr self' "device" = getattr Demo.multi_net "device"
  /\ (forall name : string, name <> worker_name 3 ->
        attrs self' !! name = attrs Demo.multi_net !! name
        /\ modules self' !! name = modules Demo.multi_net !! name).
Proof. apply (set_network_frame Demo.multi_net 99%nat 3 5). lia. Defined.

Lemma set_networks_attrs (ls : list Loc) (self : MultiNetwork) (i j : Z) :
  attrs (set_networks self i ls) !! worker_name j
  = if decide (i <= j < i + Z.of_nat (length ls))
    then VNet <$> ls !! Z.to_nat (j - i)
    else attrs self !! worker_name j.
Proof.
  revert self i. induction ls as [|l ls IH]; intros self i; simpl.
  - destruct (decide _); [lia|reflexivity].
  - rewrite IH. destruct (decide (i + 1 <= j < i + 1 + Z.of_nat (length ls))).
    + destruct (decide _); [|lia].
      replace (Z.to_nat (j - i)) with (S (Z.to_nat (j - (i + 1)))) by lia.
      reflexivity.
    + rewrite set_network_attrs.
      destruct (decide (worker_name i = worker_name j)) as [E|E].
      * apply worker_name_inj in E. subst j.
        destruct (decide _); [|lia].
        replace (Z.to_nat (i - i)) with 0%nat by lia. reflexivity.
      * destruct (decide _); [|reflexivity].
        assert (j = i) by lia. subst j. contradiction.
Qed.

Lemma set_networks_modules (ls : list Loc) (self : MultiNetwork) (i j : Z) :
  modules (set_networks self i ls) !! worker_name j
  = if decide (i <= j < i + Z.of_nat (length ls))
    then ls !! Z.to_nat (j - i)
    else modules self !! worker_name j.
Proof.
  revert self i. induction ls as [|l ls IH]; intros self i; simpl.
  - destruct (decide _); [lia|reflexivity].
  - rewrite IH. destruct (decide (i + 1 <= j < i + 1 + Z.of_nat (length ls))).
    + destruct (decide _); [|lia].
      replace (Z.to_nat (j - i)) with (S (Z.to_nat (j - (i + 1)))) by lia.
      reflexivity.
    + rewrite set_network_modules.
      destruct (decide (worker_name i = worker_name j)) as [E|E].
      * apply worker_name_inj in E. subst j.
        destruct (decide _); [|lia].
        replace (Z.to_nat (i - i)) with 0%nat by lia. reflexivity.
      * destruct (decide _); [|reflexivity].
        assert (j = i) by lia. subst j. contradiction.
Qed.

Lemma set_networks_modules_dom (ls : list Loc) (self : MultiNetwork) (i : Z)
    (name : string) :
  is_Some (modules (set_networks self i ls) !! name)
  <-> is_Some (modules self !! name)
      \/ exists j, i <= j < i + Z.of_nat (length ls) /\ name = worker_name j.
Proof.
  revert self i. induction ls as [|l ls IH]; intros self i; simpl.
  - split; [auto|]. intros [H|(j & Hj & _)]; [exact H|lia].
  - rewrite IH, set_network_modules. split.
    + intros [H|(j & Hj & ->)].
      * destruct (decide (worker_name i = name)) as [<-|E]; [|auto].
        right. exists i. split; [lia|reflexivity].
      * right. exists j. split; [lia|reflexivity].
    + intros [H|(j & Hj & ->)].
      * left. destruct (decide (worker_name i = name)); [eexists; reflexivity|exact H].
      * destruct (decide (j = i)) as [->|Hne].
        -- left. destruct (decide (worker_name i = worker_name i)); [|contradiction].
           eexists. reflexivity.
        -- right. exists j. split; [lia|reflexivity].
Qed.

Lemma set_networks_other (ls : list Loc) (self : MultiNetwork) (i : Z) (name : string) :
  (forall j : Z, name <> worker_name j) ->
  attrs (set_networks self i ls) !! name = attrs self !! name.
Proof.
  intros Hn. revert self i. induction ls as [|l ls IH]; intros self i; simpl.
  - reflexivity.
  - rewrite IH, set_network_attrs.
    destruct (decide (worker_name i = name)) as [E|E]; [|reflexivity].
    symmetry in E. now apply Hn in E.
Qed.

(** What [MultiNetwork.__init__] leaves in the object. *)
Lemma MultiNetwork_init_worker (ls : list Loc) (d : Q) (dev : string) (j : Z) :
  attrs (MultiNetwork_init ls d dev) !! worker_name j
  = if decide (0 <= j < Z.of_nat (length ls)) then VNet <$> ls !! Z.to_nat j else None.
Proof.
  unfold MultiNetwork_init, setattr. simpl.
  rewrite lookup_insert_ne by (intros E; symmetry in E; now apply worker_name_not_device in E).
  rewrite lookup_insert_ne by (intros E; symmetry in E; now apply worker_name_not_delta_t in E).
  rewrite set_networks_attrs. simpl.
  replace (j - 0) with j by lia.
  destruct (decide (0 <= j < 0 + Z.of_nat (length ls))), (decide (0 <= j < Z.of_nat (length ls)));
    try lia; reflexivity.
Qed.

Lemma MultiNetwork_init_module (ls : list Loc) (d : Q) (dev : string) (j : Z) :
  modules (MultiNetwork_init ls d dev) !! worker_name j
  = if decide (0 <= j < Z.of_nat (length ls)) then ls !! Z.to_nat j else None.
Proof.
  unfold MultiNetwork_init, setattr. simpl.
  rewrite set_networks_modules. simpl.
  replace (j - 0) with j by lia.
  destruct (decide (0 <= j < 0 + Z.of_nat (length ls))), (decide (0 <= j < Z.of_nat (length ls)));
    try lia; reflexivity.
Qed.

Lemma MultiNetwork_init_modules_dom (ls : list Loc) (d : Q) (dev : string) (name : string) :
  is_Some (modules (MultiNetwork_init ls d dev) !! name)
  <-> exists j, 0 <= j < Z.of_nat (length ls) /\ name = worker_name j.
Proof.
  unfold MultiNetwork_init, setattr. simpl.
  rewrite set_networks_modules_dom. simpl. split.
  - intros [[? H]|H]; [rewrite lookup_empty in H; discriminate|exact H].
  - intros H. right. exact H.
Qed.

Lemma MultiNetwork_init_delta_t (ls : list Loc) (d : Q) (dev : string) :
  attrs (MultiNetwork_init ls d dev) !! "delta_t" = Some (VFloat d).
Proof. unfold MultiNetwork_init, setattr. simpl. now rewrite lookup_insert_ne, lookup_insert_eq. Qed.

Lemma MultiNetwork_init_device (ls : list Loc) (d : Q) (dev : string) :
  attrs (MultiNetwork_init ls d dev) !! "device" = Some (VStr dev).
Proof. unfold MultiNetwork_init, setattr. simpl. now rewrite lookup_insert_eq. Qed.

(** ** The concrete piecewise model *)

Lemma Demo_delta_t : attrs Demo.multi_net !! "delta_t" = Some (VFloat Config.delta_t).
Proof. apply MultiNetwork_init_delta_t. Qed.

Lemma Demo_workers (i : Z) :
  0 <= i < Config.n_intervals -> worker Demo.multi_net Demo.heap i = Some i.
Proof.
  intros Hi.
  assert (H : forallb (fun i => bool_decide (worker Demo.multi_net Demo.heap i = Some i))
                      (seqZ 0 72) = true) by (vm_compute; reflexivity).
  rewrite forallb_forall in H.
  unfold Config.n_intervals in Hi.
  assert (Hb : bool_decide (worker Demo.multi_net Demo.heap i = Some i) = true).
  { apply H, list_elem_of_In, elem_of_seqZ. lia. }
  now apply bool_decide_eq_true in Hb.
Qed.


Section RoutingExamples.
Import Lqa.
Local Open Scope Q_scope.



(** What the stacked output looks like on that column: rows in input order,
    each tagged with the sub-network that produced it. *)
Example eval_demo_rows :
  eval Demo.echo Demo.multi_net Demo.heap [0; 1 # 2; 1; 3 # 2; 72]
  = Ok [[0; 0]; [0; 1 # 2]; [0; 1]; [1; 1 # 2]; [71; 1]].
Proof. vm_compute. reflexivity. Qed.

End RoutingExamples.

(** ** Evaluation outside the covered times *)


Section OutsideDomain.
Import Lqa.

Context {Weights : Type} (net_eval : Weights -> list Q -> result (list (list Q))).

Local Open Scope Q_scope.







End OutsideDomain.


Example eval_beyond_t_max :
  eval Demo.echo Demo.multi_net Demo.heap [100%Q] = Raise (AttributeError "worker_99").
Proof. vm_compute. reflexivity. Qed.

(** ** The same indices on binary64 values *)

Section Float64Checks.
Local Open Scope float_scope.
Local Set Warnings "-inexact-float".

(** The inputs singled out above behave on doubles as they do on
    rationals. *)
Example float_index_tiny : Float64.eval_index 1e-14 = Some (-1)%Z.
Proof. vm_compute. reflexivity. Qed.

Example float_index_above_boundary :
  Float64.eval_index (1 + 1e-14) = Some 0%Z
  /\ (Float64.delta_t <? (1 + 1e-14) - Float64.delta_t * 0) = true.
Proof. split; vm_compute; reflexivity. Qed.

Example float_index_negative :
  Float64.eval_index (-1) = Some (-1)%Z
  /\ Float64.eval_index (-0.5) = Some 0%Z.
Proof. split; vm_compute; reflexivity. Qed.

Example float_index_beyond_t_max :
  Float64.eval_index (72 + 5e-14) = Some 71%Z
  /\ Float64.eval_index 100 = Some 99%Z.
Proof. split; vm_compute; reflexivity. Qed.

(** Time [0] and every boundary [k*delta_t], [1 <= k <= 72]. *)
Example float_index_boundaries :
  Float64.eval_index 0 = Some 0%Z
  /\ forallb (fun k => bool_decide (Float64.eval_index (Float64.of_Z k) = Some (k - 1)%Z))
             (seqZ 1 72) = true.
Proof. split; vm_compute; reflexivity. Qed.

End Float64Checks.

(** ** The epoch budget *)

Section EpochDecay.
Import Lra.
Import Decay.
Local Open Scope R_scope.

Lemma py_int_nonneg (x : R) : 0 <= x -> py_int x = Zfloor x.
Proof. intros H. unfold py_int. destruct (Rle_dec 0 x); [reflexivity|contradiction]. Qed.

Lemma exp_le_mono (x y : R) : x <= y -> exp x <= exp y.
Proof.
  intros [H| ->]; [left; now apply exp_increasing|right; reflexivity].
Qed.

Lemma n_epochs_iter_pos (i : Z) : 0 < n_epochs_iter i.
Proof.
  unfold n_epochs_iter, n_epochs_ini.
  pose proof (exp_pos (IZR (- i) / Epoch_Tau)). lra.
Qed.

Lemma n_epochs_iter_antitone (i j : Z) : (i <= j)%Z -> n_epochs_iter j <= n_epochs_iter i.
Proof.
  intros Hij. unfold n_epochs_iter, n_epochs_ini, Epoch_Tau.
  assert (H : IZR (- j) / 3 <= IZR (- i) / 3).
  { rewrite !opp_IZR. apply IZR_le in Hij. lra. }
  apply exp_le_mono in H. lra.
Qed.

Lemma n_epochs_iter_0 : n_epochs_iter 0 = 5000.
Proof.
  unfold n_epochs_iter, n_epochs_ini, Epoch_Tau.
  change (IZR (- 0)) with 0.
  replace (0 / 3) with 0 by lra. rewrite exp_0. lra.
Qed.

Lemma Zfloor_Rmax_500 (x : R) : Zfloor (Rmax x 500) = Z.max (Zfloor x) 500.
Proof.
  destruct (Rle_dec 500 x) as [H|H].
  - rewrite Rmax_left by exact H.
    assert (500 <= Zfloor x)%Z by (apply Zfloor_lub; exact H). lia.
  - rewrite Rmax_right by lra. rewrite (ZfloorZ 500).
    assert (Zfloor x < 500)%Z.
    { apply lt_IZR. pose proof (Zfloor_bound x). lra. }
    lia.
Qed.

Lemma Epoch_Decay_lt_100 (i : Z) :
  (i < 100)%Z -> Epoch_Decay i = Z.max (py_int (n_epochs_iter i)) 500.
Proof.
  intros Hi. unfold Epoch_Decay.
  apply Z.ltb_lt in Hi. rewrite Hi. cbv zeta.
  unfold n_epochs_min. pose proof (n_epochs_iter_pos i) as Hpos.
  rewrite py_int_nonneg.
  - rewrite Zfloor_Rmax_500. rewrite py_int_nonneg by lra. reflexivity.
  - pose proof (Rmax_r (n_epochs_iter i) 500). lra.
Qed.

Lemma Epoch_Decay_ge_100 (i : Z) : (100 <= i)%Z -> Epoch_Decay i = 500%Z.
Proof.
  intros Hi. unfold Epoch_Decay.
  apply Z.ltb_ge in Hi. rewrite Hi. reflexivity.
Qed.

Lemma Epoch_Decay_lower (i : Z) : (500 <= Epoch_Decay i)%Z.
Proof.
  destruct (Z_lt_le_dec i 100) as [H|H].
  - rewrite Epoch_Decay_lt_100 by exact H. lia.
  - rewrite Epoch_Decay_ge_100 by exact H. lia.
Qed.

Lemma Epoch_Decay_antitone (i j : Z) : (i <= j)%Z -> (Epoch_Decay j <= Epoch_Decay i)%Z.
Proof.
  intros Hij. destruct (Z_lt_le_dec j 100) as [Hj|Hj].
  - rewrite !Epoch_Decay_lt_100 by lia.
    rewrite !py_int_nonneg by (left; apply n_epochs_iter_pos).
    pose proof (Zfloor_le _ _ (n_epochs_iter_antitone i j Hij)). lia.
  - rewrite (Epoch_Decay_ge_100 j Hj). apply Epoch_Decay_lower.
Qed.

Lemma Epoch_Decay_0 : Epoch_Decay 0 = 5000%Z.
Proof.
  rewrite Epoch_Decay_lt_100 by lia.
  rewrite py_int_nonneg by (left; apply n_epochs_iter_pos).
  rewrite n_epochs_iter_0. rewrite (ZfloorZ 5000). reflexivity.
Qed.

(** C3: for an iteration index [i >= 0], [Epoch_Decay i] is
    [max(int(5000*exp(-i/3)), 500)] below 100 and [500] from 100 on; it does
    not increase with [i], lies between 500 and 5000, and is 5000 at 0. *)
Theorem Epoch_Decay_spec (i j : Z) :
  (0 <= i)%Z -> (i <= j)%Z ->
  ((i < 100)%Z ->
     Epoch_Decay i = Z.max (py_int (5000 * exp (IZR (- i) / 3))) 500)
  /\ ((100 <= i)%Z -> Epoch_Decay i = 500%Z)
  /\ (Epoch_Decay j <= Epoch_Decay i)%Z
  /\ (500 <= Epoch_Decay i <= 5000)%Z
  /\ Epoch_Decay 0 = 5000%Z.
Proof.
  intros Hi Hij.
  split; [apply Epoch_Decay_lt_100|].
  split; [apply Epoch_Decay_ge_100|].
  split; [now apply Epoch_Decay_antitone|].
  split; [|apply Epoch_Decay_0].
  split; [apply Epoch_Decay_lower|].
  rewrite <- Epoch_Decay_0. now apply Epoch_Decay_antitone.
Qed.

Lemma Epoch_Decay_spec_witness :
  ((1 < 100)%Z ->
     Epoch_Decay 1 = Z.max (py_int (5000 * exp (IZR (- 1) / 3))) 500)
  /\ ((100 <= 1)%Z -> Epoch_Decay 1 = 500%Z)
  /\ (Epoch_Decay 4 <= Epoch_Decay 1)%Z
  /\ (500 <= Epoch_Decay 1 <= 5000)%Z
  /\ Epoch_Decay 0 = 5000%Z.
Proof. apply (Epoch_Decay_spec 1 4); lia. Defined.

(** Without [i >= 0] the upper bound is lost: the budget at [-3] exceeds
    5000. *)
Example Epoch_Decay_negative : (5000 < Epoch_Decay (-3))%Z.
Proof.
  rewrite Epoch_Decay_lt_100 by lia.
  rewrite py_int_nonneg by (left; apply n_epochs_iter_pos).
  assert (H : 5001 <= n_epochs_iter (-3)).
  { unfold n_epochs_iter, n_epochs_ini, Epoch_Tau.
    change (IZR (- -3)) with 3.
    replace (3 / 3) with 1 by lra.
    pose proof (exp_ineq1_le 1). lra. }
  apply (Zfloor_lub 5001) in H. lia.
Qed.

End EpochDecay.

(** ** Further properties of [MultiNetwork.eval] *)

Lemma rmap_app {A B} (f : A -> result B) (l1 l2 : list A) :
  rmap f (l1 ++ l2)
  = rbind (rmap f l1) (fun y1 => rbind (rmap f l2) (fun y2 => Ok (y1 ++ y2))).
Proof.
  induction l1 as [|x l1 IH]; simpl.
  - destruct (rmap f l2); reflexivity.
  - destruct (f x); simpl; [|reflexivity]. rewrite IH.
    destruct (rmap f l1); simpl; [|reflexivity].
    destruct (rmap f l2); reflexivity.
Qed.

Lemma rmap_length {A B} (f : A -> result B) (l : list A) (ys : list B) :
  rmap f l = Ok ys -> length ys = length l.
Proof.
  revert ys. induction l as [|x l IH]; simpl; intros ys H.
  - injection H as <-. reflexivity.
  - destruct (f x); simpl in H; [|discriminate].
    destruct (rmap f l); simpl in H; [|discriminate].
    injection H as <-. simpl. f_equal. now apply IH.
Qed.

Lemma rmap_ext_Forall {A B} (f g : A -> result B) (l : list A) :
  Forall (fun x => f x = g x) l -> rmap f l = rmap g l.
Proof.
  induction 1 as [|x l Hx _ IH]; simpl; [reflexivity|].
  now rewrite Hx, IH.
Qed.

Lemma concat_singletons {A} (l : list A) : concat (map (fun r => [r]) l) = l.
Proof. induction l as [|x l IH]; simpl; [reflexivity|now rewrite IH]. Qed.

Section EvalProperties.
Import Lqa.

Context {Weights : Type} (net_eval : Weights -> list Q -> result (list (list Q))).

(** [eval] with the offsets written with the attribute [self.delta_t]. *)
Lemma eval_unfold_attr (self : MultiNetwork) (heap : gmap Loc Weights) (ts : list Q)
    (d : Q) :
  attrs self !! "delta_t" = Some (VFloat d) ->
  eval net_eval self heap ts
  = rbind (rmap (fun t => _eval_interval net_eval self heap (route t)
                            (t - d * inject_Z (route t))%Q) ts)
          np_vstack.
Proof.
  intros Hd. unfold eval, getattr. rewrite Hd. simpl.
  unfold eval_indices. rewrite map_map.
  rewrite (rmap_zip_indices (_eval_interval net_eval self heap)
             (fun t => eval_index (t / Config.delta_t)%Q)
             (fun t i => (t - d * inject_Z i)%Q)).
  reflexivity.
Qed.

Lemma np_vstack_app (b1 b2 : list (list (list Q))) :
  b1 <> [] -> b2 <> [] ->
  np_vstack (b1 ++ b2)
  = rbind (np_vstack b1) (fun r1 => rbind (np_vstack b2) (fun r2 => Ok (r1 ++ r2))).
Proof.
  intros H1 H2. destruct b1 as [|x b1]; [contradiction|].
  destruct b2 as [|y b2]; [contradiction|].
  simpl. rewrite concat_app. simpl. now rewrite app_assoc.
Qed.

(** X1: on an empty column of times [eval] raises the [ValueError] of
    [np.vstack], whatever the model holds; without the attribute [delta_t]
    it raises an attribute error on every input, before any sub-network is
    looked up. *)
Theorem eval_empty_input (self : MultiNetwork) (heap : gmap Loc Weights) :
  (forall d, attrs self !! "delta_t" = Some (VFloat d) ->
     eval net_eval self heap [] = Raise ValueError)
  /\ (attrs self !! "delta_t" = None ->
        forall ts, eval net_eval self heap ts = Raise (AttributeError "delta_t")).
Proof.
  split.
  - intros d Hd. rewrite (eval_unfold_attr _ _ _ d Hd). reflexivity.
  - intros Hd ts. unfold eval, getattr. rewrite Hd. reflexivity.
Qed.

(** X2: [eval] handles every time on its own: the result on the
    concatenation of two non-empty columns is the result on the first stacked
    on the result on the second, and an exception on the first column wins
    over one on the second. *)
Theorem eval_concat (self : MultiNetwork) (heap : gmap Loc Weights)
    (ts1 ts2 : list Q) :
  ts1 <> [] -> ts2 <> [] ->
  eval net_eval self heap (ts1 ++ ts2)
  = rbind (eval net_eval self heap ts1) (fun r1 =>
      rbind (eval net_eval self heap ts2) (fun r2 => Ok (r1 ++ r2))).
Proof.
  intros H1 H2.
  destruct (attrs self !! "delta_t") as [[l|d|s]|] eqn:Hd;
    try (unfold eval, getattr; rewrite Hd; reflexivity).
  rewrite !(eval_unfold_attr _ _ _ d Hd), rmap_app.
  set (F := fun t => _eval_interval net_eval self heap (route t)
                       (t - d * inject_Z (route t))%Q).
  destruct (rmap F ts1) as [b1|e1] eqn:E1; [|reflexivity]. simpl.
  destruct (rmap F ts2) as [b2|e2] eqn:E2; simpl.
  - apply rmap_length in E1, E2.
    rewrite np_vstack_app; [reflexivity| |].
    + intros ->. destruct ts1; [contradiction|discriminate].
    + intros ->. destruct ts2; [contradiction|discriminate].
  - apply rmap_length in E1.
    destruct b1; [destruct ts1; [contradiction|discriminate]|reflexivity].
Qed.

Lemma rmap_rows {A B} (f : A -> result (list B)) (P : A -> B -> Prop) (l : list A) :
  Forall (fun x => exists y, f x = Ok [y] /\ P x y) l ->
  exists ys, rmap f l = Ok (map (fun y => [y]) ys) /\ Forall2 P l ys.
Proof.
  induction 1 as [|x l (y & Hy & HP) _ (ys & Hys & HF)].
  - exists []. split; [reflexivity|constructor].
  - exists (y :: ys). simpl. rewrite Hy, Hys. split; [reflexivity|].
    now constructor.
Qed.

(** When every time of a non-empty column is routed to a registered
    sub-network that returns one row, [eval] returns, with one row per time
    and in the order of the times. *)
Lemma eval_ok_rows (self : MultiNetwork) (heap : gmap Loc Weights) (ts : list Q) :
  attrs self !! "delta_t" = Some (VFloat Config.delta_t) ->
  ts <> [] ->
  Forall (fun t => exists w row, worker self heap (route t) = Some w
                                 /\ net_eval w [shifted t] = Ok [row]) ts ->
  exists rows,
    eval net_eval self heap ts = Ok rows
    /\ Forall2 (fun t row => exists w, worker self heap (route t) = Some w
                                       /\ net_eval w [shifted t] = Ok [row])
               ts rows.
Proof.
  intros Hd Hne Hall. rewrite eval_unfold by exact Hd.
  destruct (rmap_rows
              (fun t => _eval_interval net_eval self heap (route t) (shifted t))
              (fun t row => exists w, worker self heap (route t) = Some w
                                      /\ net_eval w [shifted t] = Ok [row]) ts)
    as (rows & Hr & HF).
  { eapply Forall_impl; [exact Hall|]. intros t (w & row & Hw & He).
    exists row. rewrite (eval_interval_worker net_eval _ _ _ _ _ Hw). eauto. }
  exists rows. rewrite Hr. simpl. split; [|exact HF].
  destruct rows as [|r rows].
  - apply Forall2_length in HF. destruct ts; [contradiction|discriminate].
  - simpl. now rewrite concat_singletons.
Qed.

(** X3: if every time of a non-empty column is routed to a registered
    sub-network and that sub-network returns one row for it, [eval] returns
    as many rows as there are times, and the row at position [k] is the
    output of the sub-network selected for the [k]-th time at its shifted
    time. *)
Theorem eval_one_row_per_time (self : MultiNetwork) (heap : gmap Loc Weights)
    (ts : list Q) :
  attrs self !! "delta_t" = Some (VFloat Config.delta_t) ->
  ts <> [] ->
  Forall (fun t => exists w row, worker self heap (route t) = Some w
                                 /\ net_eval w [shifted t] = Ok [row]) ts ->
  exists rows,
    eval net_eval self heap ts = Ok rows
    /\ length rows = length ts
    /\ forall (k : nat) (t : Q), ts !! k = Some t ->
         exists w row, rows !! k = Some row
                       /\ worker self heap (route t) = Some w
                       /\ net_eval w [shifted t] = Ok [row].
Proof.
  intros Hd Hne Hall.
  destruct (eval_ok_rows self heap ts Hd Hne Hall) as (rows & Hev & HF).
  exists rows. split; [exact Hev|]. split.
  - symmetry. now apply Forall2_length in HF.
  - intros k t Hk.
    destruct (Forall2_lookup_l _ _ _ _ _ HF Hk) as (row & Hrow & w & Hw & He).
    eauto.
Qed.

(** X4: the exception [eval] raises is that of the first time, in input
    order, whose sub-network evaluation raises; what comes after it in the
    column plays no role. *)
Theorem eval_first_failure (self : MultiNetwork) (heap : gmap Loc Weights)
    (ts1 ts2 : list Q) (t : Q) (e : exn) :
  attrs self !! "delta_t" = Some (VFloat Config.delta_t) ->
  Forall (fun t' => exists block,
            _eval_interval net_eval self heap (route t') (shifted t') = Ok block) ts1 ->
  _eval_interval net_eval self heap (route t) (shifted t) = Raise e ->
  eval net_eval self heap (ts1 ++ t :: ts2) = Raise e.
Proof.
  intros Hd Hok Hbad. rewrite eval_unfold by exact Hd. rewrite rmap_app.
  assert (H1 : exists b1,
             rmap (fun t => _eval_interval net_eval self heap (route t) (shifted t)) ts1
             = Ok b1).
  { induction Hok as [|x l [b Hb] _ [bs Hbs]]; [eexists; reflexivity|].
    simpl. rewrite Hb, Hbs. eexists. reflexivity. }
  destruct H1 as [b1 ->]. simpl. rewrite Hbad. reflexivity.
Qed.

End EvalProperties.

Lemma eval_concat_witness :
  eval Demo.echo Demo.multi_net Demo.heap ([1 # 2] ++ [3 # 2; 100])%Q
  = rbind (eval Demo.echo Demo.multi_net Demo.heap [1 # 2]%Q) (fun r1 =>
      rbind (eval Demo.echo Demo.multi_net Demo.heap [3 # 2; 100]%Q)
            (fun r2 => Ok (r1 ++ r2))).
Proof.
  refine (eval_concat Demo.echo Demo.multi_net Demo.heap [1 # 2]%Q [3 # 2; 100]%Q _ _);
    discriminate.
Defined.

Lemma eval_one_row_per_time_witness :
  exists rows,
    eval Demo.echo Demo.multi_net Demo.heap [0; 3 # 2; 72]%Q = Ok rows
    /\ length rows = length [0; 3 # 2; 72]%Q
    /\ forall (k : nat) (t : Q), [0; 3 # 2; 72]%Q !! k = Some t ->
         exists w row, rows !! k = Some row
                       /\ worker Demo.multi_net Demo.heap (route t) = Some w
                       /\ Demo.echo w [shifted t] = Ok [row].
Proof.
  refine (eval_one_row_per_time Demo.echo Demo.multi_net Demo.heap
            [0; 3 # 2; 72]%Q _ _ _).
  - exact Demo_delta_t.
  - discriminate.
  - repeat constructor; eexists _, _; split; vm_compute; reflexivity.
Defined.

Lemma eval_first_failure_witness :
  eval Demo.echo Demo.multi_net Demo.heap ([1 # 2] ++ 100 :: [200])%Q
  = Raise (AttributeError "worker_99").
Proof.
  refine (eval_first_failure Demo.echo Demo.multi_net Demo.heap
            [1 # 2]%Q [200]%Q 100%Q _ _ _ _).
  - exact Demo_delta_t.
  - repeat constructor. eexists. vm_compute. reflexivity.
  - vm_compute. reflexivity.
Defined.

Section EvalComposition.
Import Lqa.

Context {Weights : Type} (net_eval : Weights -> list Q -> result (list (list Q))).

Local Open Scope Q_scope.



Lemma rmap_zip_ext {B} (F G : Z -> Q -> result B) (g : Q -> Z) (h : Q -> Z -> Q)
    (ts : list Q) :
  Forall (fun t => F (g t) (h t (g t)) = G (g t) (h t (g t))) ts ->
  rmap (fun '(i, idata) => F i idata) (zip (map g ts) (zip_with h ts (map g ts)))
  = rmap (fun '(i, idata) => G i idata) (zip (map g ts) (zip_with h ts (map g ts))).
Proof.
  intros H. rewrite !rmap_zip_indices. now apply rmap_ext_Forall.
Qed.

(** [eval] on two objects and stores that answer alike for the sub-networks
    the times are routed to. *)
Lemma eval_ext (self self' : MultiNetwork) (heap heap' : gmap Loc Weights)
    (ts : list Q) :
  attrs self' !! "delta_t" = attrs self !! "delta_t" ->
  Forall (fun t => forall s, _eval_interval net_eval self' heap' (route t) s
                             = _eval_interval net_eval self heap (route t) s) ts ->
  eval net_eval self' heap' ts = eval net_eval self heap ts.
Proof.
  intros Hd Hall. unfold eval, getattr. rewrite Hd.
  destruct (attrs self !! "delta_t") as [[l|d|s]|]; try reflexivity.
  simpl. unfold eval_indices. rewrite map_map. f_equal.
  apply (rmap_zip_ext (_eval_interval net_eval self' heap')
           (_eval_interval net_eval self heap)
           (fun t => eval_index (t / Config.delta_t)%Q)
           (fun t i => (t - d * inject_Z i)%Q)).
  eapply Forall_impl; [exact Hall|]. intros t Ht. apply Ht.
Qed.

(** X7: registering a network in slot [index] changes the output of the
    model only at the times routed to that slot: on a column none of whose
    times is routed to [index], [eval] is as before; a time routed to
    [index] is from then on answered by the registered object. *)
Theorem eval_after_set_network (self : MultiNetwork) (heap : gmap Loc Weights)
    (net : Loc) (index : Z) (ts : list Q) :
  Forall (fun t => route t <> index) ts ->
  eval net_eval (set_network self net index) heap ts = eval net_eval self heap ts
  /\ forall (w : Weights) (s : Q), heap !! net = Some w ->
       _eval_interval net_eval (set_network self net index) heap index s
       = net_eval w [s].
Proof.
  intros Hall. split.
  - apply eval_ext.
    + rewrite set_network_attrs.
      destruct (decide (worker_name index = "delta_t")) as [E|E]; [|reflexivity].
      now apply worker_name_not_delta_t in E.
    + eapply Forall_impl; [exact Hall|]. intros t Ht s.
      unfold _eval_interval, getattr. rewrite set_network_attrs.
      destruct (decide (worker_name index = worker_name (route t))) as [E|E];
        [|reflexivity].
      apply worker_name_inj in E. congruence.
  - intros w s Hw. apply eval_interval_worker.
    unfold worker. rewrite set_network_attrs.
    destruct (decide (worker_name index = worker_name index)); [|contradiction].
    exact Hw.
Qed.

(** X8: [eval] reads the store only at the registered sub-networks: two
    stores that hold the same parameters for every object registered as a
    worker give the same result. *)
Theorem eval_heap_frame (self : MultiNetwork) (heap heap' : gmap Loc Weights)
    (ts : list Q) :
  (forall (i : Z) (l : Loc), attrs self !! worker_name i = Some (VNet l) ->
                             heap' !! l = heap !! l) ->
  eval net_eval self heap' ts = eval net_eval self heap ts.
Proof.
  intros Hsame. apply eval_ext; [reflexivity|].
  apply Forall_forall. intros t _ s.
  unfold _eval_interval, getattr.
  destruct (attrs self !! worker_name (route t)) as [[l|x|x]|] eqn:E; try reflexivity.
  simpl. now rewrite (Hsame _ _ E).
Qed.

End EvalComposition.



Lemma eval_after_set_network_witness :
  eval Demo.echo (set_network Demo.multi_net 7%nat 3) Demo.heap [1 # 2; 72]%Q
  = eval Demo.echo Demo.multi_net Demo.heap [1 # 2; 72]%Q
  /\ forall (w : Z) (s : Q), Demo.heap !! 7%nat = Some w ->
       _eval_interval Demo.echo (set_network Demo.multi_net 7%nat 3) Demo.heap 3 s
       = Demo.echo w [s].
Proof.
  refine (eval_after_set_network Demo.echo Demo.multi_net Demo.heap 7%nat 3
            [1 # 2; 72]%Q _).
  repeat constructor; vm_compute; discriminate.
Defined.

Lemma eval_heap_frame_witness :
  eval Demo.echo Demo.multi_net (<[200%nat := 5]> Demo.heap) [1 # 2]%Q
  = eval Demo.echo Demo.multi_net Demo.heap [1 # 2]%Q.
Proof.
  refine (eval_heap_frame Demo.echo Demo.multi_net Demo.heap
            (<[200%nat := 5]> Demo.heap) [1 # 2]%Q _).
  intros i l H. apply lookup_insert_ne. intros <-.
  unfold Demo.multi_net in H. rewrite MultiNetwork_init_worker in H.
  destruct (decide _) as [Hi|]; [|discriminate].
  destruct (Demo.models_list !! Z.to_nat i) eqn:E; [|discriminate].
  injection H as ->. apply lookup_lt_Some in E as Hlt.
  unfold Demo.models_list in E. rewrite lookup_seq in E.
  destruct E as [E _]. change (length Demo.models_list) with 72%nat in Hlt. lia.
Defined.

Lemma rmap_ok_Forall {A B} (f : A -> result B) (l : list A) (ys : list B) :
  rmap f l = Ok ys -> Forall (fun x => exists y, f x = Ok y) l.
Proof.
  revert ys. induction l as [|x l IH]; simpl; intros ys H; [constructor|].
  destruct (f x) as [y|e] eqn:E; simpl in H; [|discriminate].
  destruct (rmap f l) as [ys'|e]; simpl in H; [|discriminate].
  constructor; [exists y; exact E|]. eapply IH. reflexivity.
Qed.

Section EvalReturns.

Context {Weights : Type} (net_eval : Weights -> list Q -> result (list (list Q))).

(** X19: [eval] never returns a result for a column in which some time has
    no sub-network: when it returns, the column is not empty, the object has
    its [delta_t], and every time of the column is routed to a registered
    sub-network whose evaluation returned. *)
Theorem eval_ok_all_registered (self : MultiNetwork) (heap : gmap Loc Weights)
    (ts : list Q) (rows : list (list Q)) :
  eval net_eval self heap ts = Ok rows ->
  ts <> []
  /\ (exists d, attrs self !! "delta_t" = Some (VFloat d)
        /\ Forall (fun t => exists w block,
                     worker self heap (route t) = Some w
                     /\ net_eval w [(t - d * inject_Z (route t))%Q] = Ok block) ts).
Proof.
  intros Hev.
  destruct (attrs self !! "delta_t") as [[l|d|s]|] eqn:Hd;
    try (unfold eval, getattr in Hev; rewrite Hd in Hev; discriminate).
  rewrite (eval_unfold_attr net_eval _ _ _ d Hd) in Hev.
  destruct (rmap _ ts) as [blocks|e] eqn:Hr; simpl in Hev; [|discriminate].
  split.
  - intros ->. simpl in Hr. injection Hr as <-. discriminate.
  - exists d. split; [reflexivity|].
    apply rmap_ok_Forall in Hr. eapply Forall_impl; [exact Hr|].
    intros t [block Hb]. unfold _eval_interval, getattr, worker in *.
    destruct (attrs self !! worker_name (route t)) as [[l|x|x]|]; try discriminate.
    simpl in Hb. destruct (heap !! l) as [w|]; [|discriminate]. eauto.
Qed.

End EvalReturns.

Lemma eval_ok_all_registered_witness :
  [0; 3 # 2]%Q <> []
  /\ (exists d, attrs Demo.multi_net !! "delta_t" = Some (VFloat d)
        /\ Forall (fun t => exists w block,
                     worker Demo.multi_net Demo.heap (route t) = Some w
                     /\ Demo.echo w [(t - d * inject_Z (route t))%Q] = Ok block)
                  [0; 3 # 2]%Q).
Proof.
  refine (eval_ok_all_registered Demo.echo Demo.multi_net Demo.heap [0; 3 # 2]%Q
            [[0; 0]; [1; 1 # 2]]%Q _).
  vm_compute. reflexivity.
Defined.

(** ** Further properties of the registry *)

(** X9: after [MultiNetwork(models_list, delta_t, device)] the slot
    [worker_j] holds the [j]-th element of [models_list], as attribute and
    as registered module, for every position [j] of the list; no other
    worker exists, and [delta_t] and [device] hold the arguments. *)
Theorem MultiNetwork_init_registry (models_list : list Loc) (delta_t : Q)
    (device : string) :
  let self := MultiNetwork_init models_list delta_t device in
  (forall (j : nat) (l : Loc), models_list !! j = Some l ->
     getattr self (worker_name (Z.of_nat j)) = Ok (VNet l)
     /\ modules self !! worker_name (Z.of_nat j) = Some l)
  /\ (forall j : Z, ~ (0 <= j < Z.of_nat (length models_list)) ->
        getattr self (worker_name j) = Raise (AttributeError (worker_name j))
        /\ modules self !! worker_name j = None)
  /\ (forall name : string,
        is_Some (modules self !! name)
        <-> exists j, 0 <= j < Z.of_nat (length models_list) /\ name = worker_name j)
  /\ getattr self "delta_t" = Ok (VFloat delta_t)
  /\ getattr self "device" = Ok (VStr device).
Proof.
  cbv zeta. split; [|split; [|split; [|split]]].
  - intros j l Hj. apply lookup_lt_Some in Hj as Hlt.
    unfold getattr. rewrite MultiNetwork_init_worker, MultiNetwork_init_module.
    destruct (decide _); [|lia]. rewrite Nat2Z.id, Hj. split; reflexivity.
  - intros j Hj. unfold getattr.
    rewrite MultiNetwork_init_worker, MultiNetwork_init_module.
    destruct (decide _); [contradiction|]. split; reflexivity.
  - apply MultiNetwork_init_modules_dom.
  - unfold getattr. now rewrite MultiNetwork_init_delta_t.
  - unfold getattr. now rewrite MultiNetwork_init_device.
Qed.

(** X10: a second [set_network] on the same index replaces the first, and
    two [set_network] calls on different indices can be made in either
    order. *)
Theorem set_network_overwrite (self : MultiNetwork) (n1 n2 : Loc) (i j : Z) :
  set_network (set_network self n1 i) n2 i = set_network self n2 i
  /\ (i <> j ->
      set_network (set_network self n1 i) n2 j
      = set_network (set_network self n2 j) n1 i).
Proof.
  unfold set_network, add_module, setattr. simpl. split.
  - now rewrite !insert_insert_eq.
  - intros Hij.
    assert (Hn : worker_name j <> worker_name i).
    { intros E. apply worker_name_inj in E. congruence. }
    f_equal; now apply insert_insert_ne.
Qed.

(** ** The exact epoch budget *)

Section EpochTable.
Import Lra.
Import Decay.
Import Qreals.

Lemma round_dn_le (q : Q) : (ExpBound.round_dn q <= q)%Q.
Proof.
  unfold ExpBound.round_dn. rewrite Qmake_Qdiv.
  apply Qle_shift_div_r; [reflexivity|]. apply Qfloor_le.
Qed.

Lemma round_dn_nonneg (q : Q) : (0 <= q)%Q -> (0 <= ExpBound.round_dn q)%Q.
Proof.
  intros Hq.
  assert (H : (0 <= Qfloor (q * inject_Z (2 ^ 64)))%Z).
  { change 0%Z with (Qfloor 0). apply Qfloor_resp_le.
    apply Qmult_le_0_compat; [exact Hq|discriminate]. }
  unfold ExpBound.round_dn, Qle. cbn [Qnum Qden]. lia.
Qed.

Lemma sq_dn_nonneg (n : nat) (q : Q) : (0 <= q)%Q -> (0 <= ExpBound.sq_dn n q)%Q.
Proof.
  revert q. induction n as [|n IH]; intros q Hq; [exact Hq|].
  simpl. apply IH, round_dn_nonneg. now apply Qmult_le_0_compat.
Qed.

Local Open Scope R_scope.

Lemma sq_dn_sound (n : nat) (q : Q) (y : R) :
  (0 <= q)%Q -> Q2R q <= exp y -> Q2R (ExpBound.sq_dn n q) <= exp (2 ^ n * y).
Proof.
  revert q y. induction n as [|n IH]; intros q y Hq Hle.
  - simpl. now replace (1 * y) with y by lra.
  - simpl ExpBound.sq_dn.
    replace (2 ^ S n * y) with (2 ^ n * (y + y)) by (simpl; lra).
    apply IH.
    + apply round_dn_nonneg. now apply Qmult_le_0_compat.
    + rewrite exp_plus.
      pose proof (Qle_Rle _ _ (round_dn_le (q * q))) as H. rewrite Q2R_mult in H.
      apply Qle_Rle in Hq. change (Q2R 0) with (0 * / 1) in Hq.
      assert (0 <= Q2R q) by lra.
      apply Rle_trans with (Q2R q * Q2R q); [exact H|].
      apply Rmult_le_compat; assumption.
Qed.

Lemma exp_lb_sound (x : Q) :
  (0 <= 1 + x * (1 # 16777216))%Q -> Q2R (ExpBound.exp_lb x) <= exp (Q2R x).
Proof.
  intros H0. unfold ExpBound.exp_lb.
  replace (Q2R x) with (2 ^ 24 * (Q2R x * / 16777216)) by (simpl; lra).
  apply sq_dn_sound; [exact H0|].
  rewrite Q2R_plus, Q2R_mult.
  replace (Q2R 1) with 1 by (unfold Q2R; simpl; lra).
  replace (Q2R (1 # 16777216)) with (/ 16777216) by (unfold Q2R; simpl; lra).
  apply exp_ineq1_le.
Qed.

(** The integer part of the float computed on line 101, from two rational
    checks. *)
Lemma n_epochs_iter_floor (i v : Z) :
  (0 <= 1 + (- i # 3) * (1 # 16777216))%Q ->
  (0 <= 1 + (i # 3) * (1 # 16777216))%Q ->
  (inject_Z v <= 5000 * ExpBound.exp_lb (- i # 3))%Q ->
  (5000 < inject_Z (v + 1) * ExpBound.exp_lb (i # 3))%Q ->
  Zfloor (n_epochs_iter i) = v.
Proof.
  intros H1 H2 Hlo Hhi.
  pose proof (exp_lb_sound _ H1) as L1. pose proof (exp_lb_sound _ H2) as L2.
  apply Qle_Rle in Hlo. apply Qlt_Rlt in Hhi.
  rewrite Q2R_mult in Hlo, Hhi.
  assert (E5 : Q2R 5000 = 5000) by (unfold Q2R; simpl; lra).
  assert (Ev : forall z, Q2R (inject_Z z) = IZR z).
  { intros z. unfold Q2R. simpl. lra. }
  rewrite E5, Ev in Hlo. rewrite E5, Ev in Hhi.
  assert (Ex1 : Q2R (- i # 3) = IZR (- i) / 3) by reflexivity.
  assert (Ex2 : Q2R (i # 3) = - (IZR (- i) / 3)).
  { unfold Q2R. simpl. rewrite opp_IZR. lra. }
  rewrite Ex1 in L1. rewrite Ex2, exp_Ropp in L2.
  unfold n_epochs_iter, n_epochs_ini, Epoch_Tau.
  set (a := exp (IZR (- i) / 3)) in *.
  set (l1 := Q2R (ExpBound.exp_lb (- i # 3))) in *.
  set (l2 := Q2R (ExpBound.exp_lb (i # 3))) in *.
  assert (Ha : 0 < a) by apply exp_pos.
  assert (Hl : 0 <= l2).
  { pose proof (Qle_Rle _ _ (sq_dn_nonneg 24 _ H2)) as H.
    change (Q2R 0) with (0 * / 1) in H. unfold l2, ExpBound.exp_lb. lra. }
  assert (Hv : 0 < IZR (v + 1)).
  { destruct (Rle_or_lt (IZR (v + 1)) 0) as [Hn|Hp]; [|exact Hp]. nra. }
  apply Zfloor_eq. split; [nra|].
  rewrite plus_IZR in Hv, Hhi.
  assert (Hl2 : l2 * a <= 1).
  { replace 1 with (/ a * a) by (field; lra). nra. }
  nra.
Qed.

Lemma Epoch_Decay_from_floor (i v : Z) :
  (i < 100)%Z -> Zfloor (n_epochs_iter i) = v -> Epoch_Decay i = Z.max v 500.
Proof.
  intros Hi <-. rewrite Epoch_Decay_lt_100 by exact Hi.
  now rewrite py_int_nonneg by (left; apply n_epochs_iter_pos).
Qed.

Ltac epoch_entry v :=
  apply (Epoch_Decay_from_floor _ v); [lia|];
  apply n_epochs_iter_floor;
  [ vm_compute; discriminate | vm_compute; discriminate
  | vm_compute; discriminate | vm_compute; reflexivity ].

Lemma Epoch_Decay_head :
  Epoch_Decay 1 = 3582%Z /\ Epoch_Decay 2 = 2567%Z /\ Epoch_Decay 3 = 1839%Z
  /\ Epoch_Decay 4 = 1317%Z /\ Epoch_Decay 5 = 944%Z /\ Epoch_Decay 6 = 676%Z
  /\ Epoch_Decay 7 = 500%Z.
Proof.
  repeat split.
  - change 3582%Z with (Z.max 3582 500). epoch_entry 3582%Z.
  - change 2567%Z with (Z.max 2567 500). epoch_entry 2567%Z.
  - change 1839%Z with (Z.max 1839 500). epoch_entry 1839%Z.
  - change 1317%Z with (Z.max 1317 500). epoch_entry 1317%Z.
  - change 944%Z with (Z.max 944 500). epoch_entry 944%Z.
  - change 676%Z with (Z.max 676 500). epoch_entry 676%Z.
  - change 500%Z with (Z.max 484 500). epoch_entry 484%Z.
Qed.

Lemma Epoch_Decay_tail (i : Z) : (7 <= i)%Z -> Epoch_Decay i = 500%Z.
Proof.
  intros Hi. pose proof (Epoch_Decay_antitone 7 i Hi) as H.
  destruct Epoch_Decay_head as (_ & _ & _ & _ & _ & _ & H7). rewrite H7 in H.
  pose proof (Epoch_Decay_lower i). lia.
Qed.

Lemma Epoch_Decay_nth (i : Z) :
  (0 <= i)%Z -> Epoch_Decay i = nth (Z.to_nat i) ExpBound.table 500%Z.
Proof.
  intros Hi. destruct Epoch_Decay_head as (H1 & H2 & H3 & H4 & H5 & H6 & _).
  destruct (Z_lt_le_dec i 7) as [Hlt|Hge].
  - assert (i = 0 \/ i = 1 \/ i = 2 \/ i = 3 \/ i = 4 \/ i = 5 \/ i = 6)%Z
      as [->|[->|[->|[->|[->|[->| ->]]]]]] by lia;
      [apply Epoch_Decay_0|assumption..].
  - rewrite (Epoch_Decay_tail i Hge).
    rewrite nth_overflow; [reflexivity|]. simpl. lia.
Qed.

(** X11: the budget of the ADAM fit is known exactly: 5000, 3582, 2567,
    1839, 1317, 944 and 676 epochs for the intervals 0 to 6, and the minimum
    of 500 epochs from interval 7 on; it decreases strictly up to interval 7.
    Over the 72 intervals of a run the ADAM fits are given 48425 epochs in
    total. *)
Theorem Epoch_Decay_table :
  (forall i : Z, (0 <= i)%Z ->
     Epoch_Decay i = nth (Z.to_nat i) [5000; 3582; 2567; 1839; 1317; 944; 676]%Z 500%Z)
  /\ (forall i : Z, (7 <= i)%Z -> Epoch_Decay i = 500%Z)
  /\ (forall i : Z, (0 <= i < 7)%Z -> (Epoch_Decay (i + 1) < Epoch_Decay i)%Z)
  /\ foldr Z.add 0%Z (map Epoch_Decay (seqZ 0 Config.n_intervals)) = 48425%Z.
Proof.
  split; [exact Epoch_Decay_nth|]. split; [exact Epoch_Decay_tail|]. split.
  - intros i Hi. rewrite !Epoch_Decay_nth by lia.
    assert (i = 0 \/ i = 1 \/ i = 2 \/ i = 3 \/ i = 4 \/ i = 5 \/ i = 6)%Z
      as [->|[->|[->|[->|[->|[->| ->]]]]]] by lia; reflexivity.
  - rewrite (map_ext_in Epoch_Decay
               (fun i => nth (Z.to_nat i) ExpBound.table 500%Z)).
    + vm_compute. reflexivity.
    + intros i Hin. apply Epoch_Decay_nth.
      apply list_elem_of_In, elem_of_seqZ in Hin. lia.
Qed.

End EpochTable.

(** * The script *)

(** The [params] dictionary handed to both fits (lines 297-303); the
    residual operator is represented by the network it is bound to. *)
Record LossParams : Type := mkLossParams {
  residual : Loc;
  initial_input : list (list Q);
  initial_state : list (list Q);
  weights_residual : list Z;
  initial_penalty : Q
}.

(** The operations of the script that may raise. *)
Inductive Op : Type :=
| OpAdam (i : Z)
| OpLbfgs (i : Z)
| OpEval (i : Z)
| OpLastRow (i : Z)
| OpLoadStateDict (i : Z)
| OpWrite
| OpRead
| OpMultiEval
| OpReadCsv
| OpSavefig (name : string).

Section Script.

Variable Weights : Type.
Variable OptState : Type.
Variable StateDict : Type.

(** Parameters of a freshly constructed network; they may differ from one
    construction to the next (random initialisation). *)
Variable init_weights : Loc -> Weights.
(** [Optimizer("adam", params=optimizer_config)] *)
Variable optimizer0 : OptState.
(** [optimizer.fit(op=net, input_data, n_epochs, loss="pirmse", params)] *)
Variable adam_fit :
  OptState -> Weights -> list Q -> Z -> LossParams -> result (OptState * Weights).
(** [ScipyInterface(fun=net, optimizer="L-BFGS-B", ...).fit(input_data)] *)
Variable lbfgs_fit : Weights -> list Q -> LossParams -> result Weights.
Variable net_eval : Weights -> list Q -> result (list (list Q)).
Variable state_dict : Weights -> StateDict.
Variable load_state_dict : Weights -> StateDict -> result Weights.
(** [SPFile.write] and [SPFile.read] *)
Variable spfile_write : MultiNetwork -> gmap Loc Weights -> result unit.
Variable spfile_read : result (MultiNetwork * gmap Loc Weights).
Variable read_csv : string -> result unit.
Variable savefig : string -> list (list Q) -> result unit.

(** Calls into the framework, in the order in which they returned or raised.
    The log is kept most recent first. *)
Inductive Event : Type :=
| EvModel (net : Loc)
| EvSubModel (net : Loc)
| EvAdamFit (i : Z) (op : Loc) (n_epochs : Z) (params : LossParams)
    (w_in w_out : Weights)
| EvLbfgsFit (i : Z) (op : Loc) (params : LossParams) (w_in w_out : Weights)
| EvEval (i : Z) (net : Loc) (w : Weights) (input_data : list Q)
    (approximated_data : list (list Q))
| EvLoadStateDict (i : Z) (dst src : Loc) (w_src w_dst : Weights)
| EvSetNetwork (i : Z) (net : Loc)
| EvWrite
| EvRead
| EvMultiEval (approximated_data_plot : list (list Q))
| EvReadCsv
| EvSavefig (name : string)
| EvRaise (op : Op) (e : exn).

(** Program state: the object store, the script's variables and the log. *)
Record St : Type := mkSt {
  heap : gmap Loc Weights;
  next_loc : Loc;
  optimizer : OptState;
  state_t : list Q;
  net_ : Loc;
  multi_net : MultiNetwork;
  trace : list Event
}.

Definition M (A : Type) : Type := St -> St * result A.

Definition ret {A} (a : A) : M A := fun s => (s, Ok a).

Definition bind {A B} (c : M A) (k : A -> M B) : M B :=
  fun s =>
    match c s with
    | (s', Ok a) => k a s'
    | (s', Raise e) => (s', Raise e)
    end.

Notation "'let*' x ':=' c 'in' k" := (bind c (fun x => k))
  (at level 10, x name, c at level 100, k at level 200).
Notation "c ';;' k" := (bind c (fun _ => k))
  (at level 100, k at level 200, right associativity).

Definition log (ev : Event) (s : St) : St :=
  mkSt (heap s) (next_loc s) (optimizer s) (state_t s) (net_ s) (multi_net s)
       (ev :: trace s).

(** An exception leaves the state as it is and is recorded in the log. *)
Definition raise {A} (op : Op) (e : exn) : M A :=
  fun s => (log (EvRaise op e) s, Raise e).

Definition set_state_t (v : list Q) : M unit :=
  fun s => (mkSt (heap s) (next_loc s) (optimizer s) v (net_ s) (multi_net s)
                 (trace s), Ok tt).

Definition set_net_ (l : Loc) : M unit :=
  fun s => (mkSt (heap s) (next_loc s) (optimizer s) (state_t s) l (multi_net s)
                 (trace s), Ok tt).

Definition set_multi_net (mn : MultiNetwork) : M unit :=
  fun s => (mkSt (heap s) (next_loc s) (optimizer s) (state_t s) (net_ s) mn
                 (trace s), Ok tt).

Definition store (l : Loc) (w : Weights) (s : St) : St :=
  mkSt (<[l := w]> (heap s)) (next_loc s) (optimizer s) (state_t s) (net_ s)
       (multi_net s) (trace s).

(** The parameters of the object at [l].  A reference always points to a live
    object; the [None] case is there to make the function total. *)
Definition deref (op : Op) (l : Loc) : M Weights :=
  fun s =>
    match heap s !! l with
    | Some w => (s, Ok w)
    | None => raise op (LibraryError "dangling reference") s
    end.

(** Allocation of a network object. *)
Definition new_network (ev : Loc -> Event) : M Loc :=
  fun s =>
    let l := next_loc s in
    (log (ev l)
       (mkSt (<[l := init_weights l]> (heap s)) (S l) (optimizer s) (state_t s)
             (net_ s) (multi_net s) (trace s)),
     Ok l).

(** [model()] (lines 113-149) *)
Definition model : M Loc := new_network EvModel.

(** [sub_model()] (lines 173-209): the same construction as [model()]. *)
Definition sub_model : M Loc := new_network EvSubModel.

(** [[sub_model() for i in range(n_intervals)]] *)
Fixpoint sub_models (k : nat) : M (list Loc) :=
  match k with
  | O => ret []
  | S k' =>
      let* l := sub_model in
      let* ls := sub_models k' in
      ret (l :: ls)
  end.

(** [model_()] (lines 153-259) *)
Definition model_ : M MultiNetwork :=
  let t_max := 72.0%Q in
  let n_intervals := 72 in
  let delta_t := (t_max / inject_Z n_intervals)%Q in
  let* models_list := sub_models (Z.to_nat n_intervals) in
  ret (MultiNetwork_init models_list delta_t "cpu").

(** [optimizer.fit(op=net, ...)]: trains [net] in place. *)
Definition optimizer_fit (i : Z) (op : Loc) (input_data : list Q) (n_epochs : Z)
    (params : LossParams) : M unit :=
  let* w := deref (OpAdam i) op in
  fun s =>
    match adam_fit (optimizer s) w input_data n_epochs params with
    | Ok (o', w') =>
        (log (EvAdamFit i op n_epochs params w w')
           (mkSt (<[op := w']> (heap s)) (next_loc s) o' (state_t s) (net_ s)
                 (multi_net s) (trace s)),
         Ok tt)
    | Raise e => raise (OpAdam i) e s
    end.

(** [optimizer_lbfgs.fit(input_data=time_train)]: trains [fun=net] in place. *)
Definition optimizer_lbfgs_fit (i : Z) (fun_ : Loc) (input_data : list Q)
    (loss_config : LossParams) : M unit :=
  let* w := deref (OpLbfgs i) fun_ in
  fun s =>
    match lbfgs_fit w input_data loss_config with
    | Ok w' => (log (EvLbfgsFit i fun_ loss_config w w') (store fun_ w' s), Ok tt)
    | Raise e => raise (OpLbfgs i) e s
    end.

(** [net.eval(input_data=time_eval)] *)
Definition network_eval (i : Z) (net : Loc) (input_data : list Q)
  : M (list (list Q)) :=
  let* w := deref (OpEval i) net in
  fun s =>
    match net_eval w input_data with
    | Ok rows => (log (EvEval i net w input_data rows) s, Ok rows)
    | Raise e => raise (OpEval i) e s
    end.

(** [approximated_data[-1]] *)
Definition last_row (i : Z) (approximated_data : list (list Q)) : M (list Q) :=
  match last approximated_data with
  | Some row => ret row
  | None => raise (OpLastRow i) IndexError
  end.

(** [state_dict = net.state_dict(); net_.load_state_dict(state_dict)] *)
Definition copy_state_dict (i : Z) (dst src : Loc) : M unit :=
  let* w_src := deref (OpLoadStateDict i) src in
  let state_dict := state_dict w_src in
  let* w_dst := deref (OpLoadStateDict i) dst in
  fun s =>
    match load_state_dict w_dst state_dict with
    | Ok w' => (log (EvLoadStateDict i dst src w_src w') (store dst w' s), Ok tt)
    | Raise e => raise (OpLoadStateDict i) e s
    end.

(** [multi_net.set_network(net=net, index=i)] *)
Definition register (i : Z) (net : Loc) : M unit :=
  fun s =>
    (log (EvSetNetwork i net)
       (mkSt (heap s) (next_loc s) (optimizer s) (state_t s) (net_ s)
             (set_network (multi_net s) net i) (trace s)),
     Ok tt).

Definition time_grid : list Q :=
  linspace 0 Config.delta_t (Z.to_nat Config.n).

(** The body of the training loop (lines 273-353). *)
Definition train_interval (i : Z) : M unit :=
  fun s0 =>
    let net := net_ s0 in
    let time_train := time_grid in
    let time_eval := time_grid in
    let initial_state := [state_t s0] in
    let params :=
      mkLossParams net [[0%Q]] initial_state [1; 1; 1; 1] 5e8%Q in
    let get_n_epochs := Decay.Epoch_Decay i in
    (optimizer_fit i net time_train get_n_epochs params ;;
     optimizer_lbfgs_fit i net time_train params ;;
     let* approximated_data := network_eval i net time_eval in
     let* row := last_row i approximated_data in
     set_state_t row ;;
     let* fresh := model in
     set_net_ fresh ;;
     copy_state_dict i fresh net ;;
     register i net) s0.

(** [for i in range(0, int(n_intervals), 1)] *)
Fixpoint for_each (l : list Z) (body : Z -> M unit) : M unit :=
  match l with
  | [] => ret tt
  | i :: l' => body i ;; for_each l' body
  end.

(** [saver.write(..., model=multi_net, template=model_)] *)
Definition write : M unit :=
  fun s =>
    match spfile_write (multi_net s) (heap s) with
    | Ok _ => (log EvWrite s, Ok tt)
    | Raise e => raise OpWrite e s
    end.

(** The [if train == "yes"] branch (lines 69-361). *)
Definition train_branch : M unit :=
  let* l := model in
  set_net_ l ;;
  let* mn := model_ in
  set_multi_net mn ;;
  for_each (seqZ 0 Config.n_intervals) train_interval ;;
  write.

(** The [else] branch (lines 365-413). *)
Definition restore_branch : M unit :=
  fun s0 =>
    match spfile_read with
    | Raise e => raise OpRead e s0
    | Ok (mn, h) =>
        let s1 :=
          log EvRead
            (mkSt h (next_loc s0) (optimizer s0) (state_t s0) (net_ s0) mn
                  (trace s0)) in
        let time_plot := linspace 0 Config.t_max 1000 in
        match eval net_eval mn h time_plot with
        | Raise e => raise OpMultiEval e s1
        | Ok approximated_data_plot =>
            let s2 := log (EvMultiEval approximated_data_plot) s1 in
            match read_csv "Bioreactor_ODEs.csv" with
            | Raise e => raise OpReadCsv e s2
            | Ok _ =>
                let s3 := log EvReadCsv s2 in
                let name1 :=
                  "./Bioreactor_ODE_PINN_Concentration_Comparison.png" in
                match savefig name1 approximated_data_plot with
                | Raise e => raise (OpSavefig name1) e s3
                | Ok _ =>
                    let s4 := log (EvSavefig name1) s3 in
                    let name2 :=
                      "./Bioreactor_ODE_PINN_Volume_Comparison.png" in
                    match savefig name2 approximated_data_plot with
                    | Raise e => raise (OpSavefig name2) e s4
                    | Ok _ => (log (EvSavefig name2) s4, Ok tt)
                    end
                end
            end
        end
    end.

(** [parser.add_argument("--train", type=str, default="yes")] *)
Definition parse_args (argv_train : option string) : string :=
  match argv_train with
  | Some v => v
  | None => "yes"
  end.

(** The state in which the script starts: no objects, [state_t] as assigned
    on line 55. *)
Definition initial : St :=
  mkSt ∅ 0%nat optimizer0 Config.state_t0 0%nat (mkMultiNetwork ∅ ∅) [].

(** [if train == "yes": ... else: ...] (lines 67 and 365) *)
Definition dispatch (train : string) : M unit :=
  if String.eqb train "yes" then train_branch else restore_branch.

(** The whole script, as a function of the value given to [--train]
    (lines 59-67). *)
Definition script (argv_train : option string) : M unit :=
  let train := parse_args argv_train in
  let train := "yes" in
  dispatch train.


(** ** The protocol of the log

    [allowed ev earlier] says what has to come directly before the event
    [ev]; [earlier] is the log at the time [ev] is added, most recent event
    first. *)

(** An ADAM fit opens an interval.  It follows either the construction of the
    piecewise model (interval 0, trained from the initial condition) or the
    registration of the previous interval's network, whose last evaluated row
    is the initial state and whose copy is the network to train. *)
Definition adam_start (i : Z) (op : Loc) (params : LossParams) (w_in : Weights)
    (earlier : list Event) : Prop :=
  match earlier with
  | EvSubModel _ :: _ =>
      i = 0 /\ initial_state params = [Config.state_t0]
  | EvSetNetwork i' _ :: EvLoadStateDict _ dst _ _ w_dst :: EvModel _
      :: EvEval _ _ _ _ rows :: _ =>
      i = i' + 1 /\ op = dst /\ w_in = w_dst
      /\ exists row, last rows = Some row /\ initial_state params = [row]
  | _ => False
  end.

(** Which operation raised [e], on which arguments, after what. *)
Definition raise_after (op : Op) (e : exn) (earlier : list Event) : Prop :=
  match op, earlier with
  | OpAdam i, EvSubModel _ :: _ =>
      i = 0
      /\ exists o w p,
           initial_state p = [Config.state_t0]
           /\ adam_fit o w time_grid (Decay.Epoch_Decay i) p = Raise e
  | OpAdam i, EvSetNetwork i' _ :: EvLoadStateDict _ dst _ _ w_dst :: EvModel _
      :: EvEval _ _ _ _ rows :: _ =>
      i = i' + 1
      /\ exists o p row,
           residual p = dst /\ last rows = Some row /\ initial_state p = [row]
           /\ adam_fit o w_dst time_grid (Decay.Epoch_Decay i) p = Raise e
  | OpLbfgs i, EvAdamFit i' _ _ p _ w1 :: _ =>
      i = i' /\ lbfgs_fit w1 time_grid p = Raise e
  | OpEval i, EvLbfgsFit i' _ _ _ w2 :: _ =>
      i = i' /\ net_eval w2 time_grid = Raise e
  | OpLastRow i, EvEval i' _ _ _ rows :: _ =>
      i = i' /\ last rows = None /\ e = IndexError
  | OpLoadStateDict i, EvModel dst :: EvEval i' _ w _ _ :: _ =>
      i = i' /\ load_state_dict (init_weights dst) (state_dict w) = Raise e
  | OpWrite, EvSetNetwork i _ :: _ =>
      i = Config.n_intervals - 1 /\ exists mn h, spfile_write mn h = Raise e
  | _, _ => False
  end.

Definition allowed (ev : Event) (earlier : list Event) : Prop :=
  match ev, earlier with
  | _, EvRaise _ _ :: _ => False
  | _, EvWrite :: _ => False
  | EvLbfgsFit i op p w1 w2, EvAdamFit i' op' _ p' _ w1' :: _ =>
      i = i' /\ op = op' /\ p = p' /\ w1 = w1'
      /\ lbfgs_fit w1 time_grid p = Ok w2
  | EvRaise (OpLbfgs i) e, EvAdamFit i' _ _ p _ w1 :: _ =>
      i = i' /\ lbfgs_fit w1 time_grid p = Raise e
  | _, EvAdamFit _ _ _ _ _ _ :: _ => False
  | EvLbfgsFit _ _ _ _ _, _ => False
  | EvAdamFit i op n p w0 w1, _ =>
      0 <= i < Config.n_intervals /\ n = Decay.Epoch_Decay i /\ residual p = op
      /\ adam_start i op p w0 earlier
      /\ exists o o', adam_fit o w0 time_grid n p = Ok (o', w1)
  | EvEval i net w inp rows, EvLbfgsFit i' net' _ _ w' :: _ =>
      i = i' /\ net = net' /\ w = w' /\ inp = time_grid
      /\ net_eval w inp = Ok rows
  | EvEval _ _ _ _ _, _ => False
  | EvLoadStateDict i dst src w_src w_dst,
    EvModel dst' :: EvEval i' src' w_src' _ _ :: _ =>
      i = i' /\ dst = dst' /\ src = src' /\ w_src = w_src' /\ dst <> src
      /\ load_state_dict (init_weights dst) (state_dict w_src) = Ok w_dst
  | EvLoadStateDict _ _ _ _ _, _ => False
  | EvSetNetwork i net, EvLoadStateDict i' _ src _ _ :: _ => i = i' /\ net = src
  | EvSetNetwork _ _, _ => False
  | EvWrite, EvSetNetwork i _ :: _ =>
      i = Config.n_intervals - 1 /\ exists mn h, spfile_write mn h = Ok tt
  | EvWrite, _ => False
  | EvModel _, _ => True
  | EvSubModel _, _ => True
  | EvRaise op e, _ => raise_after op e earlier
  | EvRead, _ => False
  | EvMultiEval _, _ => False
  | EvReadCsv, _ => False
  | EvSavefig _, _ => False
  end.

Fixpoint wf_trace (tr : list Event) : Prop :=
  match tr with
  | [] => True
  | ev :: earlier => allowed ev earlier /\ wf_trace earlier
  end.

(** The intervals whose ADAM fit completed, and those whose network was
    registered, in the order in which that happened. *)
Definition adam_index (ev : Event) : option Z :=
  match ev with
  | EvAdamFit i _ _ _ _ _ => Some i
  | _ => None
  end.

Definition set_index (ev : Event) : option Z :=
  match ev with
  | EvSetNetwork i _ => Some i
  | _ => None
  end.

Definition trained_intervals (tr : list Event) : list Z := rev (omap adam_index tr).
Definition registered_intervals (tr : list Event) : list Z := rev (omap set_index tr).

(** The interval an operation belongs to; saving comes after the last one. *)
Definition op_interval (op : Op) : Z :=
  match op with
  | OpAdam i | OpLbfgs i | OpEval i | OpLastRow i | OpLoadStateDict i => i
  | _ => Config.n_intervals
  end.

(** The object trained in interval [i]: the first [model()] for interval 0,
    after the 72 sub-models the copies made at the end of each interval. *)
Definition loc_of (i : Z) : Loc :=
  if i =? 0 then 0%nat else Z.to_nat (72 + i).

(** The sub-model that [model_()] puts into slot [i]. *)
Definition sub_loc (i : Z) : Loc := Z.to_nat (1 + i).

Lemma wf_trace_split (later earlier : list Event) (ev : Event) :
  wf_trace (later ++ ev :: earlier) -> allowed ev earlier /\ wf_trace earlier.
Proof.
  induction later as [|a later IH]; simpl; [trivial|].
  intros [_ H]. auto.
Qed.

Lemma allowed_after_raise (ev : Event) (op : Op) (e : exn) (earlier : list Event) :
  ~ allowed ev (EvRaise op e :: earlier).
Proof. destruct ev as [| | | | | | | | | | | |[] ?]; simpl; auto. Qed.

Lemma allowed_after_write (ev : Event) (earlier : list Event) :
  ~ allowed ev (EvWrite :: earlier).
Proof. destruct ev as [| | | | | | | | | | | |[] ?]; simpl; auto. Qed.

(** Nothing is logged after the save. *)
Lemma wf_trace_write_last (later earlier : list Event) :
  wf_trace (later ++ EvWrite :: earlier) -> later = [].
Proof.
  induction later as [|a later IH]; [reflexivity|].
  simpl. intros [Ha Hwf]. rewrite (IH Hwf) in Ha. simpl in Ha.
  now apply allowed_after_write in Ha.
Qed.

(** Nothing is logged after an exception. *)
Lemma wf_trace_raise_last (later earlier : list Event) (op : Op) (e : exn) :
  wf_trace (later ++ EvRaise op e :: earlier) -> later = [].
Proof.
  induction later as [|a later IH]; [reflexivity|].
  simpl. intros [Ha Hwf]. rewrite (IH Hwf) in Ha. simpl in Ha.
  now apply allowed_after_raise in Ha.
Qed.

Lemma allowed_after_adam (ev : Event) (i : Z) (op : Loc) (n : Z) (p : LossParams)
    (w0 w1 : Weights) (earlier : list Event) :
  allowed ev (EvAdamFit i op n p w0 w1 :: earlier) ->
  (exists w2, ev = EvLbfgsFit i op p w1 w2) \/ (exists e, ev = EvRaise (OpLbfgs i) e).
Proof.
  destruct ev as [| | | | | | | | | | | |[] ?]; simpl; try contradiction.
  - intros (-> & -> & -> & -> & _). left. eexists. reflexivity.
  - intros (-> & _). right. eexists. reflexivity.
Qed.

(** What directly follows a completed ADAM fit, if anything, is the L-BFGS
    fit of the same interval, completed or raising. *)
Lemma wf_trace_after_adam (later earlier : list Event) (i : Z) (op : Loc) (n : Z)
    (p : LossParams) (w0 w1 : Weights) :
  wf_trace (later ++ EvAdamFit i op n p w0 w1 :: earlier) ->
  later = []
  \/ exists ev, last later = Some ev
       /\ ((exists w2, ev = EvLbfgsFit i op p w1 w2)
           \/ (exists e, ev = EvRaise (OpLbfgs i) e)).
Proof.
  induction later as [|a later IH]; [left; reflexivity|].
  simpl. intros [Ha Hwf]. right.
  destruct (IH Hwf) as [->|(ev & Hl & Hev)].
  - simpl in Ha. exists a. split; [reflexivity|].
    now apply allowed_after_adam in Ha.
  - exists ev. split; [|exact Hev].
    destruct later; [discriminate|exact Hl].
Qed.

(** ** Invariants of the training loop *)

(** The registry while interval [k] is the next to train: the slots below [k]
    hold the trained networks, the others the sub-models built by
    [model_()]. *)
Record Registry (k : Z) (st : St) : Prop := {
  reg_trained : forall i, 0 <= i < k ->
    exists p w1 w2,
      attrs (multi_net st) !! worker_name i = Some (VNet (loc_of i))
      /\ modules (multi_net st) !! worker_name i = Some (loc_of i)
      /\ heap st !! loc_of i = Some w2
      /\ EvLbfgsFit i (loc_of i) p w1 w2 ∈ trace st;
  reg_untrained : forall i, k <= i < Config.n_intervals ->
    attrs (multi_net st) !! worker_name i = Some (VNet (sub_loc i))
    /\ modules (multi_net st) !! worker_name i = Some (sub_loc i)
    /\ heap st !! sub_loc i = Some (init_weights (sub_loc i));
  reg_names : forall name,
    is_Some (modules (multi_net st) !! name)
    <-> exists i, 0 <= i < Config.n_intervals /\ name = worker_name i;
  reg_attr_names : forall j,
    is_Some (attrs (multi_net st) !! worker_name j) -> 0 <= j < Config.n_intervals;
  reg_delta_t : attrs (multi_net st) !! "delta_t" = Some (VFloat Config.delta_t);
  reg_device : attrs (multi_net st) !! "device" = Some (VStr "cpu")
}.

(** The end of the log and the variables at the head of the loop. *)
Definition loop_head (k : Z) (st : St) : Prop :=
  match trace st with
  | EvSubModel _ :: _ => k = 0 /\ state_t st = Config.state_t0
  | EvSetNetwork i _ :: EvLoadStateDict _ dst _ _ w_dst :: EvModel _
      :: EvEval _ _ _ _ rows :: _ =>
      k = i + 1 /\ net_ st = dst /\ heap st !! dst = Some w_dst
      /\ last rows = Some (state_t st)
  | _ => False
  end.

Record Inv (k : Z) (st : St) : Prop := {
  inv_wf : wf_trace (trace st);
  inv_head : loop_head k st;
  inv_next : next_loc st = Z.to_nat (73 + k);
  inv_net : net_ st = loc_of k;
  inv_live : is_Some (heap st !! net_ st);
  inv_reg : Registry k st;
  inv_trained : trained_intervals (trace st) = seqZ 0 k;
  inv_registered : registered_intervals (trace st) = seqZ 0 k
}.

(** The state in which the script stops when an operation of interval [k]
    (or, for [k = n_intervals], the final save) raises [e]. *)
Record Failed (k : Z) (e : exn) (st : St) : Prop := {
  fail_wf : wf_trace (trace st);
  fail_head : exists op tl, trace st = EvRaise op e :: tl /\ op_interval op = k;
  fail_reg : Registry k st;
  fail_trained :
    trained_intervals (trace st) = seqZ 0 k
    \/ trained_intervals (trace st) = seqZ 0 (k + 1);
  fail_registered : registered_intervals (trace st) = seqZ 0 k
}.

(** Arithmetic on locations. *)
Ltac locs :=
  unfold loc_of, sub_loc, Config.n_intervals in *;
  repeat match goal with
         | |- context [?x =? 0] => destruct (Z.eqb_spec x 0)
         | H : context [?x =? 0] |- _ => destruct (Z.eqb_spec x 0)
         end;
  lia.

Lemma Registry_frame (k : Z) (st st' : St) :
  Registry k st ->
  multi_net st' = multi_net st ->
  (forall l, l <> loc_of k -> (l < Z.to_nat (73 + k))%nat ->
             heap st' !! l = heap st !! l) ->
  (forall ev, ev ∈ trace st -> ev ∈ trace st') ->
  0 <= k ->
  Registry k st'.
Proof.
  intros [Ht Hu Hn Ha Hd Hv] Hmn Hheap Htr Hk.
  split; rewrite ?Hmn; try assumption.
  - intros i Hi. destruct (Ht i Hi) as (p & w1 & w2 & H1 & H2 & H3 & H4).
    exists p, w1, w2. repeat split; try assumption.
    + rewrite Hheap; [exact H3| |];
        locs.
    + now apply Htr.
  - intros i Hi. destruct (Hu i Hi) as (H1 & H2 & H3).
    repeat split; try assumption.
    rewrite Hheap; [exact H3| |]; locs.
Qed.

Lemma trained_intervals_cons (ev : Event) (tr : list Event) :
  trained_intervals (ev :: tr)
  = trained_intervals tr ++ match adam_index ev with Some i => [i] | None => [] end.
Proof.
  unfold trained_intervals. simpl.
  destruct (adam_index ev); simpl; [reflexivity|now rewrite app_nil_r].
Qed.

Lemma registered_intervals_cons (ev : Event) (tr : list Event) :
  registered_intervals (ev :: tr)
  = registered_intervals tr ++ match set_index ev with Some i => [i] | None => [] end.
Proof.
  unfold registered_intervals. simpl.
  destruct (set_index ev); simpl; [reflexivity|now rewrite app_nil_r].
Qed.

Lemma seqZ_snoc (k : Z) : 0 <= k -> seqZ 0 (k + 1) = seqZ 0 k ++ [k].
Proof.
  intros Hk. rewrite seqZ_app by lia.
  rewrite (seqZ_cons (0 + k) 1) by lia.
  rewrite (seqZ_nil (Z.succ (0 + k))) by lia. reflexivity.
Qed.

Ltac st_simpl :=
  unfold log, store, raise, ret, set_state_t, set_net_, set_multi_net in *;
  cbn [heap next_loc optimizer state_t net_ multi_net trace fst snd] in *.

Lemma head_allows_raise (k : Z) (st : St) (e : exn) (o : OptState) (w0 : Weights)
    (p : LossParams) :
  loop_head k st ->
  heap st !! net_ st = Some w0 ->
  residual p = net_ st ->
  initial_state p = [state_t st] ->
  adam_fit o w0 time_grid (Decay.Epoch_Decay k) p = Raise e ->
  allowed (EvRaise (OpAdam k) e) (trace st).
Proof.
  intros Hh Hw Hr Hi Hfit. unfold loop_head in Hh.
  destruct (trace st) as [|[] l]; try contradiction.
  - destruct Hh as [-> Hs]. simpl. split; [reflexivity|].
    exists o, w0, p. rewrite Hi, Hs. auto.
  - destruct l as [|[] [|[] [|[] l]]]; try contradiction.
    destruct Hh as (-> & Hn & Hd & Hl). simpl. split; [reflexivity|].
    assert (w_dst = w0) as -> by congruence.
    exists o, p. eexists. repeat split; [congruence|exact Hl|exact Hi|exact Hfit].
Qed.

Lemma head_allows_raise_write (st : St) (e : exn) :
  loop_head Config.n_intervals st ->
  spfile_write (multi_net st) (heap st) = Raise e ->
  allowed (EvRaise OpWrite e) (trace st).
Proof.
  unfold loop_head. destruct (trace st) as [|[] l]; try contradiction.
  - intros [H _]. discriminate.
  - destruct l as [|[] [|[] [|[] l]]]; try contradiction.
    intros (H & _) Hw. simpl. split; [lia|eauto].
Qed.

Lemma head_allows_write (st : St) :
  loop_head Config.n_intervals st ->
  spfile_write (multi_net st) (heap st) = Ok tt ->
  allowed EvWrite (trace st).
Proof.
  unfold loop_head. destruct (trace st) as [|[] l]; try contradiction.
  - intros [H _]. discriminate.
  - destruct l as [|[] [|[] [|[] l]]]; try contradiction.
    intros (H & _) Hw. simpl. split; [lia|eauto].
Qed.

Lemma head_allows_adam (k : Z) (st : St) (o o' : OptState) (w0 w1 : Weights)
    (p : LossParams) :
  0 <= k < Config.n_intervals ->
  loop_head k st ->
  heap st !! net_ st = Some w0 ->
  residual p = net_ st ->
  initial_state p = [state_t st] ->
  adam_fit o w0 time_grid (Decay.Epoch_Decay k) p = Ok (o', w1) ->
  allowed (EvAdamFit k (net_ st) (Decay.Epoch_Decay k) p w0 w1) (trace st).
Proof.
  intros Hk Hh Hw Hr Hi Hfit. unfold loop_head in Hh.
  destruct (trace st) as [|[] l]; try contradiction.
  - destruct Hh as [-> Hs]. simpl. rewrite Hi, Hs. eauto 10.
  - destruct l as [|[] [|[] [|[] l]]]; try contradiction.
    destruct Hh as (-> & Hn & Hd & Hl). simpl.
    split; [lia|]. split; [reflexivity|]. split; [exact Hr|]. split; [|eauto].
    split; [reflexivity|]. split; [congruence|]. split; [congruence|].
    eexists. split; [exact Hl|exact Hi].
Qed.

Lemma Registry_register (k : Z) (st st' : St) (p : LossParams) (w1 w2 : Weights) :
  Registry k st ->
  0 <= k < Config.n_intervals ->
  multi_net st' = set_network (multi_net st) (loc_of k) k ->
  (forall l, l <> loc_of k -> (l < Z.to_nat (73 + k))%nat ->
             heap st' !! l = heap st !! l) ->
  heap st' !! loc_of k = Some w2 ->
  EvLbfgsFit k (loc_of k) p w1 w2 ∈ trace st' ->
  (forall ev, ev ∈ trace st -> ev ∈ trace st') ->
  Registry (k + 1) st'.
Proof.
  intros [Ht Hu Hn Ha Hd Hv] Hk Hmn Hheap Hw Hev Htr.
  split; rewrite ?Hmn.
  - intros i Hi. destruct (decide (i = k)) as [->|Hne].
    + exists p, w1, w2. rewrite set_network_attrs, set_network_modules.
      destruct (decide (worker_name k = worker_name k)); [|contradiction]. auto.
    + destruct (Ht i) as (p' & w1' & w2' & H1 & H2 & H3 & H4); [lia|].
      exists p', w1', w2'. rewrite set_network_attrs, set_network_modules.
      destruct (decide (worker_name k = worker_name i)) as [E|E];
        [apply worker_name_inj in E; congruence|].
      repeat split; try assumption; [|now apply Htr].
      rewrite Hheap; [exact H3| |]; locs.
  - intros i Hi. destruct (Hu i) as (H1 & H2 & H3); [lia|].
    rewrite set_network_attrs, set_network_modules.
    destruct (decide (worker_name k = worker_name i)) as [E|E];
      [apply worker_name_inj in E; lia|].
    repeat split; try assumption.
    rewrite Hheap; [exact H3| |]; locs.
  - intros name. rewrite set_network_modules.
    destruct (decide (worker_name k = name)) as [<-|E]; [|apply Hn].
    split; [intros _; exists k; auto|intros _; eexists; reflexivity].
  - intros j. rewrite set_network_attrs.
    destruct (decide (worker_name k = worker_name j)) as [E|E]; [|apply Ha].
    apply worker_name_inj in E. subst j. auto.
  - rewrite set_network_attrs.
    destruct (decide (worker_name k = "delta_t")) as [E|E]; [|exact Hd].
    now apply worker_name_not_delta_t in E.
  - rewrite set_network_attrs.
    destruct (decide (worker_name k = "device")) as [E|E]; [|exact Hv].
    now apply worker_name_not_device in E.
Qed.

(** The leaf of the symbolic execution in which an operation raised. *)
Ltac failed_leaf Hwf Hreg :=
  split; st_simpl;
  [ split; [simpl; auto|exact Hwf]
  | eexists _, _; split; reflexivity
  | eapply Registry_frame; [exact Hreg|reflexivity| | |lia]; st_simpl;
    [ intros l Hl1 Hl2; rewrite ?lookup_insert_ne by lia; reflexivity
    | intros ev Hev; rewrite !elem_of_cons; auto 10 ]
  | rewrite !trained_intervals_cons; simpl; rewrite ?app_nil_r;
    first [ left; assumption | right; rewrite seqZ_snoc by lia; congruence ]
  | rewrite !registered_intervals_cons; simpl; rewrite ?app_nil_r; assumption ].

Lemma train_interval_step (k : Z) (st : St) :
  0 <= k < Config.n_intervals ->
  Inv k st ->
  match train_interval k st with
  | (st', Ok _) => Inv (k + 1) st'
  | (st', Raise e) => Failed k e st'
  end.
Proof.
  intros Hk [Hwf Hhead Hnext Hnet [w0 Hlive] Hreg Htr Hrg].
  pose proof (fun e o p => head_allows_raise k st e o w0 p Hhead Hlive) as Hraise.
  pose proof (fun o o' w1 p => head_allows_adam k st o o' w0 w1 p Hk Hhead Hlive)
    as Hadam0.
  clear Hhead.
  destruct st as [h nl o stt nt mn tr]. st_simpl. subst nl nt.
  assert (Hk0 : 0 <= k) by lia.
  assert (Hfresh : Z.to_nat (73 + k) <> loc_of k) by locs.
  unfold train_interval. st_simpl.
  set (p := mkLossParams _ _ _ _ _) in *.
  (* ADAM *)
  unfold bind at 1. unfold optimizer_fit at 1. unfold bind at 1. unfold deref at 1.
  st_simpl. rewrite Hlive. st_simpl.
  destruct (adam_fit o w0 time_grid (Decay.Epoch_Decay k) p) as [[o' w1]|e] eqn:Hadam;
    st_simpl.
  2:{ split; st_simpl.
      - split; [refine (Hraise e o p _ _ Hadam); reflexivity|exact Hwf].
      - eexists _, _. split; reflexivity.
      - eapply Registry_frame; [exact Hreg|reflexivity| | |lia]; st_simpl.
        + reflexivity.
        + intros ev Hev. apply elem_of_cons. now right.
      - left. rewrite trained_intervals_cons. simpl. now rewrite app_nil_r.
      - rewrite registered_intervals_cons. simpl. now rewrite app_nil_r. }
  assert (Hwf1 : wf_trace (EvAdamFit k (loc_of k) (Decay.Epoch_Decay k) p w0 w1 :: tr)).
  { split; [|exact Hwf]. refine (Hadam0 o o' w1 p _ _ Hadam); reflexivity. }
  clear Hraise Hadam0.
  (* L-BFGS *)
  unfold bind at 1. unfold optimizer_lbfgs_fit at 1. unfold bind at 1. unfold deref at 1.
  st_simpl. rewrite lookup_insert_eq. st_simpl.
  destruct (lbfgs_fit w1 time_grid p) as [w2|e] eqn:Hlbfgs; st_simpl.
  2:{ failed_leaf Hwf1 Hreg. }
  assert (Hwf2 : wf_trace (EvLbfgsFit k (loc_of k) p w1 w2
                            :: EvAdamFit k (loc_of k) (Decay.Epoch_Decay k) p w0 w1 :: tr)).
  { split; [simpl; auto|exact Hwf1]. }
  (* evaluation *)
  unfold bind at 1. unfold network_eval at 1. unfold bind at 1. unfold deref at 1.
  st_simpl. rewrite lookup_insert_eq. st_simpl.
  destruct (net_eval w2 time_grid) as [rows|e] eqn:Heval; st_simpl.
  2:{ failed_leaf Hwf2 Hreg. }
  match goal with
  | |- context [EvEval ?i ?n ?w ?g ?r :: ?t] =>
      assert (Hwf3 : wf_trace (EvEval i n w g r :: t))
        by (split; [simpl; auto|exact Hwf2])
  end.
  (* last row *)
  unfold bind at 1. unfold last_row at 1.
  destruct (last rows) as [row|] eqn:Hlast; st_simpl.
  2:{ failed_leaf Hwf3 Hreg. }
  (* state_t, model(), net_ *)
  unfold bind at 1. st_simpl.
  unfold bind at 1. unfold model at 1, new_network at 1. st_simpl.
  unfold bind at 1. st_simpl.
  match goal with
  | |- context [EvModel ?l :: ?t] =>
      assert (Hwf4 : wf_trace (EvModel l :: t))
        by (split; [simpl; auto|exact Hwf3])
  end.
  (* load_state_dict *)
  unfold bind at 1. unfold copy_state_dict at 1. unfold bind at 1. unfold deref at 1.
  st_simpl. rewrite lookup_insert_ne by exact Hfresh. rewrite lookup_insert_eq.
  unfold bind at 1. unfold deref at 1. st_simpl. rewrite lookup_insert_eq. st_simpl.
  destruct (load_state_dict (init_weights (Z.to_nat (73 + k))) (state_dict w2))
    as [w3|e] eqn:Hload; st_simpl.
  2:{ failed_leaf Hwf4 Hreg. }
  match goal with
  | |- context [EvLoadStateDict ?i ?d ?s ?a ?b :: ?t] =>
      assert (Hwf5 : wf_trace (EvLoadStateDict i d s a b :: t))
        by (split; [simpl; auto 10|exact Hwf4])
  end.
  (* registration *)
  unfold register. st_simpl.
  split; st_simpl.
  - split; [simpl; auto|exact Hwf5].
  - unfold loop_head. st_simpl. rewrite lookup_insert_eq. auto.
  - lia.
  - locs.
  - rewrite lookup_insert_eq. eexists. reflexivity.
  - eapply (Registry_register k _ _ p w1 w2); [exact Hreg|exact Hk|reflexivity| | | |];
      st_simpl.
    + intros l Hl1 Hl2. rewrite ?lookup_insert_ne by lia. reflexivity.
    + rewrite !lookup_insert_ne by exact Hfresh. apply lookup_insert_eq.
    + rewrite !elem_of_cons. auto 10.
    + intros ev Hev. rewrite !elem_of_cons. auto 10.
  - rewrite !trained_intervals_cons. simpl. rewrite ?app_nil_r.
    rewrite seqZ_snoc by lia. congruence.
  - rewrite !registered_intervals_cons. simpl. rewrite ?app_nil_r.
    rewrite seqZ_snoc by lia. congruence.
Qed.

(** ** The loop and the whole script *)

Lemma for_each_train (n : nat) (k : Z) (st : St) :
  0 <= k -> k + Z.of_nat n <= Config.n_intervals ->
  Inv k st ->
  match for_each (seqZ k (Z.of_nat n)) train_interval st with
  | (st', Ok _) => Inv (k + Z.of_nat n) st'
  | (st', Raise e) => exists j, k <= j < k + Z.of_nat n /\ Failed j e st'
  end.
Proof.
  revert k st. induction n as [|n IH]; intros k st Hk Hn Hinv.
  - simpl. replace (k + Z.of_nat 0) with k by lia. exact Hinv.
  - rewrite seqZ_cons by lia. simpl for_each. unfold bind.
    pose proof (train_interval_step k st ltac:(lia) Hinv) as Hstep.
    destruct (train_interval k st) as [st1 [[]|e]].
    + replace (Z.pred (Z.of_nat (S n))) with (Z.of_nat n) by lia.
      specialize (IH (Z.succ k) st1 ltac:(lia) ltac:(lia)).
      replace (Z.succ k) with (k + 1) in * by lia.
      specialize (IH Hstep).
      destruct (for_each (seqZ (k + 1) (Z.of_nat n)) train_interval st1) as [st2 [[]|e]].
      * replace (k + Z.of_nat (S n)) with (k + 1 + Z.of_nat n) by lia. exact IH.
      * destruct IH as (j & Hj & Hf). exists j. split; [lia|exact Hf].
    + exists k. split; [lia|exact Hstep].
Qed.

Lemma sub_models_run (n : nat) (s : St) :
  exists s',
    sub_models n s = (s', Ok (seq (next_loc s) n))
    /\ next_loc s' = (next_loc s + n)%nat
    /\ optimizer s' = optimizer s
    /\ state_t s' = state_t s
    /\ net_ s' = net_ s
    /\ multi_net s' = multi_net s
    /\ trace s' = rev (map EvSubModel (seq (next_loc s) n)) ++ trace s
    /\ forall l, heap s' !! l
                 = if decide (next_loc s <= l < next_loc s + n)%nat
                   then Some (init_weights l) else heap s !! l.
Proof.
  revert s. induction n as [|n IH]; intros s.
  - exists s. simpl. repeat split; try reflexivity; try lia.
    intros l. destruct (decide _); [lia|reflexivity].
  - simpl sub_models. unfold bind at 1. unfold sub_model at 1, new_network at 1.
    st_simpl. unfold bind at 1.
    match goal with
    | |- context [sub_models n ?s1] => destruct (IH s1) as (s' & Hrun & H1 & H2 & H3 & H4 & H5 & H6 & H7)
    end.
    st_simpl. exists s'. rewrite Hrun. st_simpl.
    repeat split; try assumption; try lia.
    + rewrite H6. simpl. rewrite <- app_assoc. reflexivity.
    + intros l. rewrite H7.
      destruct (decide (S (next_loc s) <= l < S (next_loc s) + n)%nat),
               (decide (next_loc s <= l < next_loc s + S n)%nat); try lia.
      * reflexivity.
      * assert (l = next_loc s) by lia. subst l. apply lookup_insert_eq.
      * rewrite lookup_insert_ne by lia. reflexivity.
Qed.

Lemma wf_trace_sub_models (ls : list Loc) (tr : list Event) :
  wf_trace tr ->
  (exists l tl, tr = EvModel l :: tl \/ tr = EvSubModel l :: tl) ->
  wf_trace (rev (map EvSubModel ls) ++ tr).
Proof.
  revert tr. induction ls as [|l ls IH]; intros tr Hwf Hq; [exact Hwf|].
  simpl. rewrite <- app_assoc. apply IH.
  - split; [|exact Hwf]. destruct Hq as (l' & tl & [-> | ->]); simpl; trivial.
  - exists l, tr. right. reflexivity.
Qed.

(** The statements before the loop (lines 261-262) and the loop itself. *)
Definition entry : M unit :=
  let* l := model in set_net_ l ;; let* mn := model_ in set_multi_net mn.

Definition training_loop : M unit :=
  for_each (seqZ 0 Config.n_intervals) train_interval.

Lemma train_branch_split (s : St) :
  train_branch s = (entry ;; training_loop ;; write) s.
Proof.
  unfold train_branch, entry, training_loop, bind.
  destruct (model s) as [s1 [l|e]]; [|reflexivity].
  destruct (set_net_ l s1) as [s2 [[]|e]]; [|reflexivity].
  destruct (model_ s2) as [s3 [mn|e]]; [|reflexivity].
  destruct (set_multi_net mn s3) as [s4 [[]|e]]; reflexivity.
Qed.

(** The state in which the loop is entered. *)
Lemma loop_entry : exists st0, entry initial = (st0, Ok tt) /\ Inv 0 st0.
Proof.
  unfold entry. unfold bind at 1. unfold model at 1, new_network at 1. unfold initial. st_simpl.
  unfold bind at 1. st_simpl.
  unfold bind at 1. unfold model_ at 1. unfold bind at 1.
  match goal with
  | |- context [sub_models ?n ?s1] =>
      destruct (sub_models_run n s1) as (s' & Hrun & H1 & H2 & H3 & H4 & H5 & H6 & H7)
  end.
  rewrite Hrun. st_simpl. destruct s' as [h nl o stt nt mn tr]. st_simpl. subst.
  eexists. split; [reflexivity|].
  change (Z.to_nat 72) with 72%nat in *.
  split; st_simpl.
  - apply wf_trace_sub_models; [simpl; auto|]. eexists _, _. left. reflexivity.
  - unfold loop_head. st_simpl. simpl. auto.
  - reflexivity.
  - reflexivity.
  - rewrite H7. destruct (decide _); [lia|]. rewrite lookup_insert_eq. eexists. reflexivity.
  - split; st_simpl.
    + intros i Hi. lia.
    + intros i Hi. unfold Config.n_intervals in Hi.
      rewrite MultiNetwork_init_worker, MultiNetwork_init_module.
      rewrite length_seq.
      destruct (decide (0 <= i < Z.of_nat 72)); [|lia].
      rewrite lookup_seq_lt by lia. rewrite H7.
      unfold sub_loc. destruct (decide _); [|lia].
      replace (1 + Z.to_nat i)%nat with (Z.to_nat (1 + i)) by lia. auto.
    + intros name. rewrite MultiNetwork_init_modules_dom, length_seq. reflexivity.
    + intros j. rewrite MultiNetwork_init_worker, length_seq.
      destruct (decide _) as [H|H]; [intros _; exact H|].
      intros [? ?]. discriminate.
    + apply MultiNetwork_init_delta_t.
    + apply MultiNetwork_init_device.
  - reflexivity.
  - reflexivity.
Qed.

(** The outcome of a run. *)
Definition outcome (st : St) (r : result unit) : Prop :=
  match r with
  | Ok _ =>
      exists st', Inv Config.n_intervals st'
                  /\ spfile_write (multi_net st') (heap st') = Ok tt
                  /\ st = log EvWrite st'
  | Raise e => exists j, 0 <= j <= Config.n_intervals /\ Failed j e st
  end.

Lemma train_branch_outcome :
  exists st r, train_branch initial = (st, r) /\ outcome st r.
Proof.
  destruct loop_entry as (st0 & Hrun & Hinv).
  rewrite train_branch_split. unfold bind. rewrite Hrun.
  pose proof (for_each_train 72 0 st0 ltac:(lia) ltac:(unfold Config.n_intervals; lia) Hinv)
    as Hloop.
  change (Z.of_nat 72) with Config.n_intervals in Hloop.
  change (0 + Config.n_intervals) with Config.n_intervals in Hloop.
  fold training_loop in Hloop. clear Hrun Hinv.
  destruct (training_loop st0) as [s3 [[]|e]].
  - unfold write. destruct s3 as [h nl o stt nt mn' tr].
    destruct Hloop as [Hwf Hhead Hnext Hnet Hlive Hreg Htr Hrg]. st_simpl.
    destruct (spfile_write mn' h) as [[]|e] eqn:Hw; st_simpl;
      (eexists _, _; split; [reflexivity|]).
    + exists (mkSt h nl o stt nt mn' tr). split; [split; assumption|].
      split; [exact Hw|reflexivity].
    + exists Config.n_intervals. split; [unfold Config.n_intervals; lia|].
      split; st_simpl.
      * split; [|exact Hwf].
        apply (head_allows_raise_write (mkSt h nl o stt nt mn' tr) e Hhead Hw).
      * eexists _, _. split; reflexivity.
      * eapply Registry_frame; [exact Hreg|reflexivity| | |unfold Config.n_intervals; lia];
          st_simpl; [reflexivity|].
        intros ev Hev. apply elem_of_cons. now right.
      * left. rewrite trained_intervals_cons. simpl. now rewrite app_nil_r.
      * rewrite registered_intervals_cons. simpl. now rewrite app_nil_r.
  - eexists _, _. split; [reflexivity|].
    destruct Hloop as (j & Hj & Hf). exists j. split; [lia|exact Hf].
Qed.

Lemma script_is_train_branch (argv_train : option string) :
  script argv_train = train_branch.
Proof. reflexivity. Qed.

Lemma script_outcome (argv_train : option string) :
  exists st r, script argv_train initial = (st, r) /\ outcome st r.
Proof. rewrite script_is_train_branch. apply train_branch_outcome. Qed.

Lemma outcome_wf (st : St) (r : result unit) : outcome st r -> wf_trace (trace st).
Proof.
  destruct r as [[]|e]; simpl.
  - intros (st' & [Hwf Hhead _ _ _ _ _ _] & Hw & ->). st_simpl.
    split; [|exact Hwf]. now apply head_allows_write.
  - intros (j & _ & [Hwf _ _ _ _]). exact Hwf.
Qed.

(** ** Reading the protocol backwards *)

Lemma wf_lbfgs_inv (i : Z) (op : Loc) (p : LossParams) (w1 w2 : Weights)
    (tl : list Event) :
  wf_trace (EvLbfgsFit i op p w1 w2 :: tl) ->
  exists w0 tl',
    tl = EvAdamFit i op (Decay.Epoch_Decay i) p w0 w1 :: tl'
    /\ 0 <= i < Config.n_intervals /\ residual p = op
    /\ lbfgs_fit w1 time_grid p = Ok w2
    /\ exists o o', adam_fit o w0 time_grid (Decay.Epoch_Decay i) p = Ok (o', w1).
Proof.
  intros [Ha Hwf]. destruct tl as [|[] tl]; simpl in Ha; try contradiction.
  destruct Ha as (<- & <- & <- & <- & Hfit).
  destruct Hwf as [Hb _].
  assert (Hc : 0 <= i < Config.n_intervals /\ n_epochs = Decay.Epoch_Decay i
               /\ residual p = op
               /\ exists o o', adam_fit o w_in time_grid n_epochs p = Ok (o', w1)).
  { destruct tl as [|[] ?]; simpl in Hb; try contradiction; tauto. }
  destruct Hc as (? & -> & ? & ?). eauto 10.
Qed.

Lemma wf_eval_inv (i : Z) (net : Loc) (w : Weights) (inp : list Q)
    (rows : list (list Q)) (tl : list Event) :
  wf_trace (EvEval i net w inp rows :: tl) ->
  exists p w1 w0 tl',
    tl = EvLbfgsFit i net p w1 w
         :: EvAdamFit i net (Decay.Epoch_Decay i) p w0 w1 :: tl'
    /\ inp = time_grid /\ net_eval w inp = Ok rows
    /\ 0 <= i < Config.n_intervals /\ residual p = net
    /\ lbfgs_fit w1 time_grid p = Ok w.
Proof.
  intros [Ha Hwf]. destruct tl as [|[] tl]; simpl in Ha; try contradiction.
  destruct Ha as (<- & <- & <- & -> & Hev).
  destruct (wf_lbfgs_inv _ _ _ _ _ _ Hwf) as (w0 & tl' & -> & Hi & Hr & Hfit & _).
  eauto 10.
Qed.

Lemma wf_set_inv (i : Z) (net : Loc) (tl : list Event) :
  wf_trace (EvSetNetwork i net :: tl) ->
  exists dst w w' rows p w1 w0 tl',
    tl = EvLoadStateDict i dst net w w' :: EvModel dst
         :: EvEval i net w time_grid rows :: EvLbfgsFit i net p w1 w
         :: EvAdamFit i net (Decay.Epoch_Decay i) p w0 w1 :: tl'
    /\ dst <> net
    /\ load_state_dict (init_weights dst) (state_dict w) = Ok w'
    /\ net_eval w time_grid = Ok rows
    /\ 0 <= i < Config.n_intervals /\ residual p = net
    /\ lbfgs_fit w1 time_grid p = Ok w.
Proof.
  intros [Ha Hwf]. destruct tl as [|[] tl]; simpl in Ha; try contradiction.
  destruct Ha as (<- & <-).
  destruct Hwf as [Hb Hwf].
  destruct tl as [|[] [|[] tl]]; simpl in Hb; try contradiction.
  destruct Hb as (<- & <- & <- & <- & Hne & Hload).
  destruct Hwf as [_ Hwf].
  destruct (wf_eval_inv _ _ _ _ _ _ Hwf)
    as (p & w1 & w0 & tl' & -> & -> & Hev & Hi & Hr & Hfit).
  eauto 20.
Qed.

Lemma wf_adam_inv (i : Z) (op : Loc) (n : Z) (p : LossParams) (w0 w1 : Weights)
    (tl : list Event) :
  wf_trace (EvAdamFit i op n p w0 w1 :: tl) ->
  0 <= i < Config.n_intervals /\ n = Decay.Epoch_Decay i /\ residual p = op
  /\ (exists o o', adam_fit o w0 time_grid n p = Ok (o', w1))
  /\ ((i = 0 /\ initial_state p = [Config.state_t0]
       /\ exists l tl', tl = EvSubModel l :: tl')
      \/ (1 <= i
          /\ exists prev w_prev rows row p' w_in w_in' tl',
               tl = EvSetNetwork (i - 1) prev
                    :: EvLoadStateDict (i - 1) op prev w_prev w0 :: EvModel op
                    :: EvEval (i - 1) prev w_prev time_grid rows
                    :: EvLbfgsFit (i - 1) prev p' w_in w_prev
                    :: EvAdamFit (i - 1) prev (Decay.Epoch_Decay (i - 1)) p' w_in' w_in
                    :: tl'
               /\ op <> prev
               /\ load_state_dict (init_weights op) (state_dict w_prev) = Ok w0
               /\ net_eval w_prev time_grid = Ok rows
               /\ lbfgs_fit w_in time_grid p' = Ok w_prev
               /\ last rows = Some row
               /\ initial_state p = [row])).
Proof.
  intros [Ha Hwf].
  assert (Hc : 0 <= i < Config.n_intervals /\ n = Decay.Epoch_Decay i
               /\ residual p = op /\ adam_start i op p w0 tl
               /\ exists o o', adam_fit o w0 time_grid n p = Ok (o', w1)).
  { destruct tl as [|[] ?]; first [exact Ha|exfalso; exact Ha]. }
  destruct Hc as (Hi & Hn & Hr & Hs & Hfit).
  split; [exact Hi|]. split; [exact Hn|]. split; [exact Hr|]. split; [exact Hfit|].
  unfold adam_start in Hs. destruct tl as [|[] tl]; try contradiction.
  - left. destruct Hs as [-> Hs]. eauto.
  - destruct (wf_set_inv _ _ _ Hwf)
      as (dst & w & w' & rows & p' & w1' & w0' & tl' & -> & Hne & Hload & Hev & Hi' & Hr'
          & Hfit').
    destruct Hs as (-> & -> & -> & row & Hlast & Hinit).
    right. split; [lia|].
    replace (i0 + 1 - 1) with i0 by lia.
    exists net, w, rows, row, p', w1', w0', tl'. auto 10.
Qed.

(** ** The claims about a run of the script *)

Lemma script_trace_wf (argv_train : option string) :
  wf_trace (trace (fst (script argv_train initial))).
Proof.
  destruct (script_outcome argv_train) as (st & r & Hrun & Hout).
  rewrite Hrun. simpl. eapply outcome_wf. exact Hout.
Qed.

(** C2: the initial state in the loss parameters of interval 0 is the
    initial condition [[0.05; 0.00; 10.00; 1.00]]; for an interval [i >= 1]
    it is the last row of the evaluation, over the time grid, of the network
    trained in interval [i-1], with the parameters its L-BFGS fit returned.
    The L-BFGS fit of interval [i] is given the same parameters as its ADAM
    fit. *)
Theorem initial_state_handoff (argv_train : option string)
    (later earlier : list Event) (i : Z) (op : Loc) (n : Z) (p : LossParams)
    (w0 w1 : Weights) :
  trace (fst (script argv_train initial))
  = later ++ EvAdamFit i op n p w0 w1 :: earlier ->
  0 <= i < Config.n_intervals
  /\ Config.state_t0 = [0.05; 0.00; 10.00; 1.00]%Q
  /\ (i = 0 -> initial_state p = [Config.state_t0])
  /\ (1 <= i ->
      exists prev w_prev rows row p' w_in tl,
        earlier = EvSetNetwork (i - 1) prev
                  :: EvLoadStateDict (i - 1) op prev w_prev w0 :: EvModel op
                  :: EvEval (i - 1) prev w_prev time_grid rows
                  :: EvLbfgsFit (i - 1) prev p' w_in w_prev :: tl
        /\ lbfgs_fit w_in time_grid p' = Ok w_prev
        /\ net_eval w_prev time_grid = Ok rows
        /\ last rows = Some row
        /\ initial_state p = [row])
  /\ (forall next, last later = Some next ->
        (exists w2, next = EvLbfgsFit i op p w1 w2)
        \/ (exists e, next = EvRaise (OpLbfgs i) e)).
Proof.
  intros Htr. pose proof (script_trace_wf argv_train) as Hwf. rewrite Htr in Hwf.
  pose proof (wf_trace_after_adam _ _ _ _ _ _ _ _ Hwf) as Hnext.
  apply wf_trace_split in Hwf as [Ha Hwf].
  destruct (wf_adam_inv i op n p w0 w1 earlier (conj Ha Hwf))
    as (Hi & Hn & Hr & _ & [(H0 & Hinit & _)|(H1 & Hprev)]).
  - split; [exact Hi|]. split; [reflexivity|]. split; [auto|]. split; [lia|].
    intros next Hl. destruct Hnext as [->|(ev & Hl' & Hev)]; [discriminate|].
    rewrite Hl in Hl'. injection Hl' as <-. exact Hev.
  - destruct Hprev as (prev & w_prev & rows & row & p' & w_in & w_in' & tl' & -> &
                       Hne & Hload & Hev & Hfit & Hlast & Hinit).
    split; [exact Hi|]. split; [reflexivity|]. split; [lia|]. split.
    + intros _. exists prev, w_prev, rows, row, p', w_in. eauto 10.
    + intros next Hl. destruct Hnext as [->|(ev & Hl' & Hev')]; [discriminate|].
      rewrite Hl in Hl'. injection Hl' as <-. exact Hev'.
Qed.

(** C9: for [i >= 1] the object trained in interval [i] is a freshly built
    model, different from the network of interval [i-1], into which the
    state dict of that network, as left by its L-BFGS fit, was loaded; the
    ADAM fit of interval [i] starts from the result of that load.  When
    loading a state dict makes the state dict of the target equal to the one
    loaded, the parameters with which interval [i] starts are the final
    parameters of interval [i-1]. *)
Theorem warm_start (argv_train : option string) (later earlier : list Event)
    (i : Z) (op : Loc) (n : Z) (p : LossParams) (w0 w1 : Weights) :
  (forall w sd w', load_state_dict w sd = Ok w' -> state_dict w' = sd) ->
  1 <= i ->
  trace (fst (script argv_train initial))
  = later ++ EvAdamFit i op n p w0 w1 :: earlier ->
  (exists o o', adam_fit o w0 time_grid n p = Ok (o', w1))
  /\ exists prev w_prev rows p' w_in tl,
       earlier = EvSetNetwork (i - 1) prev
                 :: EvLoadStateDict (i - 1) op prev w_prev w0 :: EvModel op
                 :: EvEval (i - 1) prev w_prev time_grid rows
                 :: EvLbfgsFit (i - 1) prev p' w_in w_prev :: tl
       /\ op <> prev
       /\ lbfgs_fit w_in time_grid p' = Ok w_prev
       /\ load_state_dict (init_weights op) (state_dict w_prev) = Ok w0
       /\ state_dict w0 = state_dict w_prev.
Proof.
  intros Hcopy Hi Htr. pose proof (script_trace_wf argv_train) as Hwf.
  rewrite Htr in Hwf. apply wf_trace_split in Hwf as [Ha Hwf].
  destruct (wf_adam_inv i op n p w0 w1 earlier (conj Ha Hwf))
    as (_ & _ & _ & Hfit0 & [(H0 & _)|(_ & Hprev)]); [lia|].
  destruct Hprev as (prev & w_prev & rows & row & p' & w_in & w_in' & tl' & -> &
                     Hne & Hload & Hev & Hfit & Hlast & Hinit).
  split; [exact Hfit0|].
  exists prev, w_prev, rows, p', w_in. eexists. split; [reflexivity|].
  split; [exact Hne|]. split; [exact Hfit|]. split; [exact Hload|].
  now apply Hcopy in Hload.
Qed.

(** C6: in the log of any run, the L-BFGS fit of interval [i], whether it
    returned or raised, comes directly after the ADAM fit of interval [i],
    which returned and had the budget [Epoch_Decay i]; it works on the same
    network and parameters and starts from the parameters the ADAM fit
    returned.  A returned ADAM fit is directly followed by the L-BFGS fit of
    its interval, so that the second phase is never skipped.  The evaluation
    of interval [i] comes directly after both fits, and the registration
    after the evaluation. *)
Theorem training_phases_ordered (argv_train : option string)
    (later earlier : list Event) (ev : Event) :
  trace (fst (script argv_train initial)) = later ++ ev :: earlier ->
  (forall i op p w1 w2, ev = EvLbfgsFit i op p w1 w2 ->
     lbfgs_fit w1 time_grid p = Ok w2
     /\ exists w0 tl o o',
          earlier = EvAdamFit i op (Decay.Epoch_Decay i) p w0 w1 :: tl
          /\ adam_fit o w0 time_grid (Decay.Epoch_Decay i) p = Ok (o', w1))
  /\ (forall i e, ev = EvRaise (OpLbfgs i) e ->
        exists op p w0 w1 tl o o',
          earlier = EvAdamFit i op (Decay.Epoch_Decay i) p w0 w1 :: tl
          /\ adam_fit o w0 time_grid (Decay.Epoch_Decay i) p = Ok (o', w1)
          /\ lbfgs_fit w1 time_grid p = Raise e)
  /\ (forall i op n p w0 w1, ev = EvAdamFit i op n p w0 w1 ->
        n = Decay.Epoch_Decay i
        /\ exists next, last later = Some next
             /\ ((exists w2, next = EvLbfgsFit i op p w1 w2)
                 \/ (exists e, next = EvRaise (OpLbfgs i) e)))
  /\ (forall i net w inp rows, ev = EvEval i net w inp rows ->
        exists p w1 w0 tl,
          earlier = EvLbfgsFit i net p w1 w
                    :: EvAdamFit i net (Decay.Epoch_Decay i) p w0 w1 :: tl)
  /\ (forall i net, ev = EvSetNetwork i net ->
        exists dst w w' rows p w1 w0 tl,
          earlier = EvLoadStateDict i dst net w w' :: EvModel dst
                    :: EvEval i net w time_grid rows
                    :: EvLbfgsFit i net p w1 w
                    :: EvAdamFit i net (Decay.Epoch_Decay i) p w0 w1 :: tl).
Proof.
  intros Htr. pose proof (script_trace_wf argv_train) as Hwf.
  destruct (script_outcome argv_train) as (st & r & Hrun & Hout).
  rewrite Htr in Hwf. pose proof Hwf as Hwf'.
  apply wf_trace_split in Hwf as [Ha Hwf].
  split; [|split; [|split; [|split]]].
  - intros i op p w1 w2 ->.
    destruct (wf_lbfgs_inv _ _ _ _ _ _ (conj Ha Hwf))
      as (w0 & tl & -> & _ & _ & Hfit & o & o' & Hadam).
    clear Htr Hrun Hout. eauto 10.
  - intros i e ->. simpl in Ha.
    destruct earlier as [|[] tl]; simpl in Ha; try contradiction.
    destruct Ha as [<- Hfit].
    destruct (wf_adam_inv _ _ _ _ _ _ _ Hwf) as (_ & -> & _ & (o & o' & Hadam) & _).
    clear Htr Hrun Hout. eauto 12.
  - intros i op n p w0 w1 ->.
    destruct (wf_adam_inv _ _ _ _ _ _ _ (conj Ha Hwf)) as (_ & Hn & _).
    split; [exact Hn|].
    destruct (wf_trace_after_adam _ _ _ _ _ _ _ _ Hwf') as [->|H]; [|exact H].
    exfalso. rewrite Hrun in Htr. simpl in Htr. clear Hrun.
    destruct r as [[]|e]; simpl in Hout.
    + destruct Hout as (st' & _ & _ & ->). simpl in Htr. discriminate.
    + destruct Hout as (j & _ & [_ (op' & tl & Hh & _) _ _ _]).
      rewrite Hh in Htr. discriminate.
  - intros i net w inp rows ->.
    destruct (wf_eval_inv _ _ _ _ _ _ (conj Ha Hwf)) as (p & w1 & w0 & tl & -> & _).
    clear Htr Hrun Hout; eauto 10.
  - intros i net ->.
    destruct (wf_set_inv _ _ _ (conj Ha Hwf))
      as (dst & w & w' & rows & p & w1 & w0 & tl & -> & _).
    clear Htr Hrun Hout; eauto 20.
Qed.

Lemma trained_intervals_bound (tr : list Event) (k j : Z) :
  0 <= k ->
  trained_intervals tr = seqZ 0 k \/ trained_intervals tr = seqZ 0 (k + 1) ->
  j ∈ trained_intervals tr -> 0 <= j <= k.
Proof.
  intros Hk [-> | ->]; rewrite elem_of_seqZ; lia.
Qed.

Ltac no_raise :=
  let H := fresh in
  intros ? ? H; rewrite ?elem_of_cons in H; rewrite ?elem_of_nil in H;
  repeat destruct H as [H|H]; try discriminate; try contradiction.

Ltac raise_leaf Hhead :=
  split; [reflexivity|]; split;
  [ let H := fresh in
    intros ? ? ? ? H; apply Hhead in H as [-> ->]; [auto|no_raise]
  | let H := fresh in intros ? H; injection H as <-; eauto ].

(** In the restoring branch too, the first exception ends the run. *)
Lemma restore_branch_raises (s : St) :
  exists new,
    trace (fst (restore_branch s)) = new ++ trace s
    /\ (forall later earlier op e,
          new = later ++ EvRaise op e :: earlier ->
          later = [] /\ snd (restore_branch s) = Raise e)
    /\ (forall e, snd (restore_branch s) = Raise e ->
          exists op tl, new = EvRaise op e :: tl).
Proof.
  unfold restore_branch.
  assert (Hsplit : forall (later earlier : list Event) op e (l : list Event),
             (forall op' e', EvRaise op' e' ∉ l) ->
             l = later ++ EvRaise op e :: earlier -> False).
  { intros later earlier op e l Hno ->. apply (Hno op e).
    apply elem_of_app. right. apply elem_of_cons. now left. }
  assert (Hhead : forall (later earlier tl : list Event) op e op' e',
             EvRaise op' e' :: tl = later ++ EvRaise op e :: earlier ->
             (forall op' e', EvRaise op' e' ∉ tl) ->
             later = [] /\ e' = e).
  { intros later earlier tl op e op' e' H Hno.
    destruct later as [|a later]; simpl in H.
    - injection H as -> -> ->. auto.
    - injection H as <- H. exfalso. eapply Hsplit; [exact Hno|exact H]. }
  destruct spfile_read as [[mn h]|e]; st_simpl.
  2:{ eexists [_]. raise_leaf Hhead. }
  destruct (eval net_eval mn h (linspace 0 Config.t_max 1000)) as [plot|e]; st_simpl.
  2:{ eexists [_; _]. raise_leaf Hhead. }
  destruct (read_csv "Bioreactor_ODEs.csv") as [[]|e]; st_simpl.
  2:{ eexists [_; _; _]. raise_leaf Hhead. }
  destruct (savefig "./Bioreactor_ODE_PINN_Concentration_Comparison.png" plot)
    as [[]|e]; st_simpl.
  2:{ eexists [_; _; _; _]. raise_leaf Hhead. }
  destruct (savefig "./Bioreactor_ODE_PINN_Volume_Comparison.png" plot)
    as [[]|e]; st_simpl.
  2:{ eexists [_; _; _; _; _]. raise_leaf Hhead. }
  eexists [_; _; _; _; _].
  split; [reflexivity|]. split.
  - intros later earlier op e0 H. exfalso.
    eapply Hsplit; [|exact H]. no_raise.
  - intros e0 H. discriminate.
Qed.

(** C7: an exception raised by an operation of the script is the last entry
    of the log and is the outcome of the script.  When it is raised, exactly
    the intervals before the one the operation belongs to have been
    registered, no later interval has been trained, the slots from that
    interval on still hold the sub-models [model_()] built, and the model has
    not been saved.  Conversely a run that ends with an exception has that
    exception, raised by some operation, as the last entry of its log. *)
Theorem exceptions_propagate (argv_train : option string) :
  let st := fst (script argv_train initial) in
  let r := snd (script argv_train initial) in
  (forall later earlier op e,
     trace st = later ++ EvRaise op e :: earlier ->
     later = [] /\ r = Raise e
     /\ raise_after op e earlier
     /\ registered_intervals (trace st) = seqZ 0 (op_interval op)
     /\ (forall j, j ∈ trained_intervals (trace st) -> 0 <= j <= op_interval op)
     /\ (forall i, op_interval op <= i < Config.n_intervals ->
           attrs (multi_net st) !! worker_name i = Some (VNet (sub_loc i))
           /\ modules (multi_net st) !! worker_name i = Some (sub_loc i)
           /\ heap st !! sub_loc i = Some (init_weights (sub_loc i)))
     /\ EvWrite ∉ trace st)
  /\ (forall e, r = Raise e -> exists op tl, trace st = EvRaise op e :: tl)
  /\ (r = Ok tt -> forall op e, EvRaise op e ∉ trace st)
  /\ (forall s, exists new,
        trace (fst (restore_branch s)) = new ++ trace s
        /\ (forall later earlier op e,
              new = later ++ EvRaise op e :: earlier ->
              later = [] /\ snd (restore_branch s) = Raise e)
        /\ (forall e, snd (restore_branch s) = Raise e ->
              exists op tl, new = EvRaise op e :: tl)).
Proof.
  cbv zeta.
  destruct (script_outcome argv_train) as (st & r & Hrun & Hout).
  rewrite Hrun. clear Hrun. cbn [fst snd].
  pose proof (outcome_wf st r Hout) as Hwf.
  split; [|split; [|split]]; [| | |apply restore_branch_raises].
  - intros later earlier op e Htr. rewrite Htr in Hwf.
    pose proof (wf_trace_raise_last _ _ _ _ Hwf) as ->. simpl in Htr, Hwf.
    destruct r as [[]|e']; simpl in Hout.
    { destruct Hout as (st' & _ & _ & ->). simpl in Htr. discriminate. }
    destruct Hout as (j & Hj & [_ (op' & tl & Hh & Hop) Hreg Htrained Hregd]).
    rewrite Htr in Hh. injection Hh as -> -> ->. subst j.
    split; [reflexivity|]. split; [reflexivity|].
    split.
    { destruct Hwf as [Ha _].
      destruct op'; destruct tl as [|[] ?]; simpl in Ha |- *;
        first [exact Ha|contradiction]. }
    split; [exact Hregd|].
    split; [intros i Hi; eapply trained_intervals_bound; [lia|exact Htrained|exact Hi]|].
    split; [apply (reg_untrained _ _ Hreg)|].
    intros Hin. rewrite Htr in Hin. apply elem_of_cons in Hin as [Hin|Hin]; [discriminate|].
    apply list_elem_of_split in Hin as (l1 & l2 & ->).
    change (wf_trace ((EvRaise op' e' :: l1) ++ EvWrite :: l2)) in Hwf.
    apply wf_trace_write_last in Hwf. discriminate.
  - intros e ->. simpl in Hout.
    destruct Hout as (j & _ & [_ (op' & tl & Hh & _) _ _ _]). eauto.
  - intros -> op e Hin. simpl in Hout. destruct Hout as (st' & _ & _ & ->).
    simpl in Hin, Hwf. apply elem_of_cons in Hin as [Hin|Hin]; [discriminate|].
    apply list_elem_of_split in Hin as (l1 & l2 & Hsplit).
    destruct Hwf as [Ha Hwf]. rewrite Hsplit in Hwf, Ha.
    pose proof (wf_trace_raise_last _ _ _ _ Hwf) as ->. simpl in Ha.
    exact Ha.
Qed.

(** X12: when no fit over the time grid raises, every evaluation over the
    time grid returns at least one row, and loading a state dict and saving
    the model do not raise, the script returns. *)
Theorem script_completes (argv_train : option string) :
  (forall o w n p, exists r, adam_fit o w time_grid n p = Ok r) ->
  (forall w p, exists w', lbfgs_fit w time_grid p = Ok w') ->
  (forall w, exists rows, net_eval w time_grid = Ok rows /\ rows <> []) ->
  (forall w sd, exists w', load_state_dict w sd = Ok w') ->
  (forall mn h, spfile_write mn h = Ok tt) ->
  exists st, script argv_train initial = (st, Ok tt).
Proof.
  intros Hadam Hlbfgs Heval Hload Hwrite.
  destruct (script_outcome argv_train) as (st & r & Hrun & Hout).
  exists st. rewrite Hrun. clear Hrun.
  destruct r as [[]|e]; [reflexivity|exfalso].
  simpl in Hout. destruct Hout as (j & _ & [Hwf (op & tl & Hh & _) _ _ _]).
  rewrite Hh in Hwf. destruct Hwf as [Ha Hwf]. simpl in Ha.
  destruct op; simpl in Ha;
    repeat match type of Ha with
           | match ?l with _ => _ end => destruct l as [|[] ?]; try contradiction
           end.
  - destruct Ha as (_ & o & w & p & _ & H).
    destruct (Hadam o w (Decay.Epoch_Decay i) p) as [r Hr]. congruence.
  - destruct Ha as (_ & o & p & row & _ & _ & _ & H).
    destruct (Hadam o w_dst (Decay.Epoch_Decay i) p) as [r Hr]. congruence.
  - destruct Ha as (_ & H).
    destruct (Hlbfgs w_out params) as [r Hr]. congruence.
  - destruct Ha as (_ & H).
    destruct (Heval w_out) as (r & Hr & _). congruence.
  - destruct Ha as (_ & Hlast & _).
    destruct (wf_eval_inv _ _ _ _ _ _ Hwf) as (p & w1 & w0 & tl' & _ & -> & Hev & _).
    destruct (Heval w) as (r & Hr & Hne).
    rewrite Hev in Hr. injection Hr as <-.
    destruct approximated_data using rev_ind; [congruence|].
    rewrite last_snoc in Hlast. discriminate.
  - destruct Ha as (_ & H).
    destruct (Hload (init_weights net) (state_dict w)) as [r Hr]. congruence.
  - destruct Ha as (_ & mn & h & H). rewrite Hwrite in H. discriminate.
Qed.

(** The intervals: equal width [delta_t = t_max / n_intervals = 1],
    contiguous, with disjoint interiors, covering [[0, t_max]]. *)
Lemma intervals_partition :
  (Config.delta_t == Config.t_max / inject_Z Config.n_intervals)%Q
  /\ (Config.delta_t == 1)%Q
  /\ (forall i, interval_hi i - interval_lo i == Config.delta_t)%Q
  /\ (forall i, interval_hi i == interval_lo (i + 1))%Q
  /\ (forall i j : Z, i < j -> (interval_hi i <= interval_lo j)%Q)
  /\ (interval_lo 0 == 0)%Q
  /\ (interval_hi (Config.n_intervals - 1) == Config.t_max)%Q
  /\ (forall t, (0 <= t)%Q -> (t <= Config.t_max)%Q ->
        exists i, 0 <= i < Config.n_intervals
                  /\ (interval_lo i <= t)%Q /\ (t <= interval_hi i)%Q).
Proof.
  pose proof delta_t_one as Hd. pose proof t_max_val as Hm.
  assert (Hlo : forall i, (interval_lo i == inject_Z i)%Q).
  { intros i. unfold interval_lo. rewrite Hd. ring. }
  assert (Hhi : forall i, (interval_hi i == inject_Z i + 1)%Q).
  { intros i. unfold interval_hi. rewrite Hlo, Hd. reflexivity. }
  split; [reflexivity|]. split; [exact Hd|].
  split; [intros i; rewrite Hhi, Hlo, Hd; ring|].
  split; [intros i; rewrite Hhi, Hlo, inject_Z_plus; reflexivity|].
  split.
  { intros i j Hij. rewrite Hhi, Hlo.
    assert (H : (i + 1 <= j)%Z) by lia. rewrite Zle_Qle, inject_Z_plus in H. exact H. }
  split; [rewrite Hlo; reflexivity|].
  split; [rewrite Hhi, Hm; reflexivity|].
  intros t Ht0 Ht1. rewrite Hm in Ht1.
  pose proof (Qfloor_le t) as Hf1. pose proof (Qlt_floor t) as Hf2.
  rewrite inject_Z_plus in Hf2. change (inject_Z 1) with 1%Q in Hf2.
  assert (Hge : 0 <= Qfloor t).
  { assert (H : (inject_Z (-1) < inject_Z (Qfloor t))%Q).
    { change (inject_Z (-1)) with (-1)%Q. Lqa.lra. }
    apply inject_Z_lt_inv in H. lia. }
  assert (Hle : Qfloor t <= 72).
  { apply inject_Z_le_inv. change (inject_Z 72) with 72%Q. Lqa.lra. }
  destruct (Z.eq_dec (Qfloor t) 72) as [E|E].
  - exists 71. rewrite Hlo, Hhi. rewrite E in Hf1.
    change (inject_Z 72) with 72%Q in Hf1. change (inject_Z 71) with 71%Q.
    unfold Config.n_intervals. split; [lia|]. split; Lqa.lra.
  - exists (Qfloor t). rewrite Hlo, Hhi. unfold Config.n_intervals.
    split; [lia|]. split; Lqa.lra.
Qed.

(** C5: a run that completes has trained and registered the intervals
    [0, 1, ..., 71], in this order; the intervals have equal width
    [delta_t = t_max / n_intervals = 1], are contiguous, have disjoint
    interiors and cover [[0, t_max] = [0, 72]]; in the final model the
    registered modules are exactly [worker_0] ... [worker_71], and [worker_i]
    is the object that was trained in interval [i], with the parameters its
    L-BFGS fit produced. *)
Theorem training_loop_complete (argv_train : option string) (st : St) :
  script argv_train initial = (st, Ok tt) ->
  Config.n_intervals = 72
  /\ trained_intervals (trace st) = seqZ 0 Config.n_intervals
  /\ registered_intervals (trace st) = seqZ 0 Config.n_intervals
  /\ ((Config.delta_t == Config.t_max / inject_Z Config.n_intervals)%Q
      /\ (Config.delta_t == 1)%Q
      /\ (forall i, interval_hi i - interval_lo i == Config.delta_t)%Q
      /\ (forall i, interval_hi i == interval_lo (i + 1))%Q
      /\ (forall i j : Z, i < j -> (interval_hi i <= interval_lo j)%Q)
      /\ (interval_lo 0 == 0)%Q
      /\ (interval_hi (Config.n_intervals - 1) == Config.t_max)%Q
      /\ (forall t, (0 <= t)%Q -> (t <= Config.t_max)%Q ->
            exists i, 0 <= i < Config.n_intervals
                      /\ (interval_lo i <= t)%Q /\ (t <= interval_hi i)%Q))
  /\ (forall i, 0 <= i < Config.n_intervals ->
        exists net p w0 w1 w2,
          getattr (multi_net st) (worker_name i) = Ok (VNet net)
          /\ modules (multi_net st) !! worker_name i = Some net
          /\ worker (multi_net st) (heap st) i = Some w2
          /\ EvAdamFit i net (Decay.Epoch_Decay i) p w0 w1 ∈ trace st
          /\ EvLbfgsFit i net p w1 w2 ∈ trace st)
  /\ (forall name, is_Some (modules (multi_net st) !! name)
                   <-> exists i, 0 <= i < Config.n_intervals /\ name = worker_name i)
  /\ (forall i j, worker_name i = worker_name j -> i = j).
Proof.
  intros Hrun.
  destruct (script_outcome argv_train) as (st1 & r & Hrun' & Hout).
  rewrite Hrun in Hrun'. injection Hrun' as <- <-. clear Hrun.
  pose proof (outcome_wf _ _ Hout) as Hwf.
  simpl in Hout. destruct Hout as (st' & [_ _ _ _ _ Hreg Htr Hrg] & _ & ->).
  st_simpl.
  split; [reflexivity|].
  split; [rewrite trained_intervals_cons; simpl; now rewrite app_nil_r|].
  split; [rewrite registered_intervals_cons; simpl; now rewrite app_nil_r|].
  split; [exact intervals_partition|].
  split; [|split; [apply (reg_names _ _ Hreg)|apply worker_name_inj]].
  intros i Hi. destruct (reg_trained _ _ Hreg i Hi) as (p & w1 & w2 & H1 & H2 & H3 & H4).
  apply list_elem_of_split in H4 as (l1 & l2 & Hsplit).
  rewrite Hsplit in Hwf.
  change (wf_trace ((EvWrite :: l1) ++ EvLbfgsFit i (loc_of i) p w1 w2 :: l2)) in Hwf.
  apply wf_trace_split in Hwf.
  destruct (wf_lbfgs_inv _ _ _ _ _ _ Hwf) as (w0 & tl & -> & _).
  exists (loc_of i), p, w0, w1, w2.
  unfold getattr, worker. rewrite H1, H2, H3, Hsplit.
  repeat split; try reflexivity.
  - rewrite !elem_of_cons, !elem_of_app, !elem_of_cons. auto 10.
  - rewrite !elem_of_cons, !elem_of_app, !elem_of_cons. auto 10.
Qed.


(** ** Further properties of the script *)

(** X13: [model_()] builds 72 new sub-models and a piecewise model whose slot
    [worker_i] holds the [i]-th of them, under the attribute and in the
    module registry, with [delta_t = 1] and device ["cpu"].  The sub-models
    are pairwise different objects with freshly initialised parameters; no
    object that existed before is touched, and the variable [multi_net] is
    not assigned by the call. *)
Theorem model__allocates (s : St) :
  exists s' mn,
    model_ s = (s', Ok mn)
    /\ next_loc s' = (next_loc s + 72)%nat
    /\ (forall i : Z, 0 <= i < 72 ->
          let l := (next_loc s + Z.to_nat i)%nat in
          getattr mn (worker_name i) = Ok (VNet l)
          /\ modules mn !! worker_name i = Some l
          /\ heap s' !! l = Some (init_weights l))
    /\ (forall i j : Z, 0 <= i < 72 -> 0 <= j < 72 ->
          modules mn !! worker_name i = modules mn !! worker_name j -> i = j)
    /\ (forall name : string,
          is_Some (modules mn !! name)
          <-> exists i, 0 <= i < 72 /\ name = worker_name i)
    /\ getattr mn "delta_t" = Ok (VFloat Config.delta_t)
    /\ getattr mn "device" = Ok (VStr "cpu")
    /\ (forall l : Loc, (l < next_loc s)%nat -> heap s' !! l = heap s !! l)
    /\ multi_net s' = multi_net s
    /\ trace s' = rev (map EvSubModel (seq (next_loc s) 72)) ++ trace s.
Proof.
  destruct (sub_models_run 72 s)
    as (s' & Hrun & Hnext & _ & _ & _ & Hmn & Htr & Hheap).
  set (ls := seq (next_loc s) 72) in *.
  assert (Hlen : length ls = 72%nat) by apply length_seq.
  assert (Hmod : forall i : Z, 0 <= i < 72 ->
            modules (MultiNetwork_init ls Config.delta_t "cpu") !! worker_name i
            = Some (next_loc s + Z.to_nat i)%nat).
  { intros i Hi. rewrite MultiNetwork_init_module, Hlen.
    destruct (decide _); [|lia]. apply lookup_seq_lt. lia. }
  exists s', (MultiNetwork_init ls Config.delta_t "cpu").
  split.
  { unfold model_, bind. cbv zeta. change (Z.to_nat 72) with 72%nat.
    rewrite Hrun. reflexivity. }
  split; [exact Hnext|]. split.
  { intros i Hi l. subst l. split; [|split].
    - unfold getattr. rewrite MultiNetwork_init_worker, Hlen.
      destruct (decide _); [|lia]. unfold ls. rewrite lookup_seq_lt by lia.
      reflexivity.
    - now apply Hmod.
    - rewrite Hheap. destruct (decide _); [reflexivity|lia]. }
  split.
  { intros i j Hi Hj. rewrite !Hmod by assumption. intros E.
    injection E as E. lia. }
  split.
  { intros name. rewrite MultiNetwork_init_modules_dom, Hlen. reflexivity. }
  split; [unfold getattr; now rewrite MultiNetwork_init_delta_t|].
  split; [unfold getattr; now rewrite MultiNetwork_init_device|].
  split.
  { intros l Hl. rewrite Hheap. destruct (decide _); [lia|reflexivity]. }
  split; [exact Hmn|exact Htr].
Qed.

Lemma loc_of_inj (i j : Z) : 0 <= i -> 0 <= j -> loc_of i = loc_of j -> i = j.
Proof. intros Hi Hj H. locs. Qed.

Lemma loc_of_not_sub_loc (i j : Z) :
  0 <= i -> 0 <= j < Config.n_intervals -> loc_of i <> sub_loc j.
Proof. intros Hi Hj H. locs. Qed.

(** X14: after a run that returned, the 72 slots of the piecewise model hold
    72 different objects, none of which is a sub-model that [model_()] had
    put there; 145 network objects have been built in all, and the one built
    last, which [net_] refers to, exists but is in no slot. *)
Theorem final_objects (argv_train : option string) (st : St) :
  script argv_train initial = (st, Ok tt) ->
  next_loc st = 145%nat
  /\ (forall i j : Z, 0 <= i < Config.n_intervals -> 0 <= j < Config.n_intervals ->
        modules (multi_net st) !! worker_name i
        = modules (multi_net st) !! worker_name j -> i = j)
  /\ (exists st0,
        entry initial = (st0, Ok tt)
        /\ forall i j : Z, 0 <= i < Config.n_intervals -> 0 <= j < Config.n_intervals ->
             is_Some (modules (multi_net st0) !! worker_name j)
             /\ modules (multi_net st) !! worker_name i
                <> modules (multi_net st0) !! worker_name j)
  /\ is_Some (heap st !! net_ st)
  /\ (forall i : Z,
        modules (multi_net st) !! worker_name i <> Some (net_ st)
        /\ attrs (multi_net st) !! worker_name i <> Some (VNet (net_ st))).
Proof.
  intros Hrun.
  destruct (script_outcome argv_train) as (st1 & r & Hrun' & Hout).
  rewrite Hrun in Hrun'. injection Hrun' as <- <-. clear Hrun.
  simpl in Hout. destruct Hout as (st' & [_ _ Hnext Hnet Hlive Hreg _ _] & _ & ->).
  st_simpl.
  assert (Hslot : forall i, 0 <= i < Config.n_intervals ->
            attrs (multi_net st') !! worker_name i = Some (VNet (loc_of i))
            /\ modules (multi_net st') !! worker_name i = Some (loc_of i)).
  { intros i Hi. destruct (reg_trained _ _ Hreg i Hi) as (p & w1 & w2 & H1 & H2 & _).
    split; assumption. }
  split; [rewrite Hnext; reflexivity|]. split.
  { intros i j Hi Hj. destruct (Hslot i Hi) as [_ ->], (Hslot j Hj) as [_ ->].
    intros E. injection E as E. apply loc_of_inj in E; lia. }
  split.
  { destruct loop_entry as (st0 & Hentry & [_ _ _ _ _ Hreg0 _ _]).
    exists st0. split; [exact Hentry|]. intros i j Hi Hj.
    destruct (reg_untrained _ _ Hreg0 j) as (_ & H2 & _); [lia|].
    destruct (Hslot i Hi) as [_ H1]. rewrite H1, H2.
    split; [eexists; reflexivity|].
    intros E. injection E as E. apply loc_of_not_sub_loc in E; lia. }
  split; [exact Hlive|].
  intros i. rewrite Hnet. split.
  - intros E.
    assert (Hi : 0 <= i < Config.n_intervals).
    { destruct (proj1 (reg_names _ _ Hreg (worker_name i))) as (i' & Hi' & En).
      - rewrite E. eexists. reflexivity.
      - apply worker_name_inj in En. now subst i'. }
    destruct (Hslot i Hi) as [_ H1]. rewrite H1 in E. injection E as E.
    apply loc_of_inj in E; unfold Config.n_intervals in *; lia.
  - intros E.
    assert (Hi : 0 <= i < Config.n_intervals).
    { apply (reg_attr_names _ _ Hreg). rewrite E. eexists. reflexivity. }
    destruct (Hslot i Hi) as [H1 _]. rewrite H1 in E. injection E as E.
    apply loc_of_inj in E; unfold Config.n_intervals in *; lia.
Qed.

(** X15: in a run that returned, the model is saved once, as the last
    operation and directly after the registration of the network of the last
    interval; before it every interval has been registered, and what
    [SPFile.write] was given is the piecewise model of the final state. *)
Theorem save_once_last (argv_train : option string) (st : St) :
  script argv_train initial = (st, Ok tt) ->
  exists net tl,
    trace st = EvWrite :: EvSetNetwork (Config.n_intervals - 1) net :: tl
    /\ (EvWrite ∉ tl)
    /\ (forall op e, EvRaise op e ∉ tl)
    /\ registered_intervals (EvSetNetwork (Config.n_intervals - 1) net :: tl)
       = seqZ 0 Config.n_intervals
    /\ spfile_write (multi_net st) (heap st) = Ok tt.
Proof.
  intros Hrun.
  destruct (script_outcome argv_train) as (st1 & r & Hrun' & Hout).
  rewrite Hrun in Hrun'. injection Hrun' as <- <-. clear Hrun.
  simpl in Hout.
  destruct Hout as (st' & [Hwf Hhead _ _ _ _ _ Hrg] & Hw & ->). st_simpl.
  unfold loop_head in Hhead.
  destruct (trace st') as [|ev tl] eqn:Htr; [contradiction|].
  destruct ev; try contradiction.
  { destruct Hhead as [H _]. discriminate. }
  assert (Hi : i = Config.n_intervals - 1).
  { destruct tl as [|[] [|[] [|[] ?]]]; try contradiction.
    destruct Hhead as [H _]. lia. }
  subst i. exists net, tl. split; [reflexivity|].
  split.
  { intros Hin. apply list_elem_of_split in Hin as (l1 & l2 & ->).
    change (wf_trace ((EvSetNetwork (Config.n_intervals - 1) net :: l1)
                        ++ EvWrite :: l2)) in Hwf.
    apply wf_trace_write_last in Hwf. discriminate. }
  split.
  { intros op e Hin. apply list_elem_of_split in Hin as (l1 & l2 & ->).
    change (wf_trace ((EvSetNetwork (Config.n_intervals - 1) net :: l1)
                        ++ EvRaise op e :: l2)) in Hwf.
    apply wf_trace_raise_last in Hwf. discriminate. }
  split; [exact Hrg|exact Hw].
Qed.

(** The times of the plot (line 374) lie where [eval] routes into
    [0 .. n_intervals-1], and their shifted times in [[0, delta_t]]. *)
Lemma time_plot_routed :
  Forall (fun t => ((t == 0)%Q
                    \/ (Config.eps * Config.delta_t <= t)%Q /\ (t <= Config.t_max)%Q)
                   /\ (0 <= shifted t)%Q /\ (shifted t <= Config.delta_t)%Q)
         (linspace 0 Config.t_max 1000).
Proof.
  assert (H : forallb (fun t =>
                (Qeq_bool t 0
                 || Qle_bool (Config.eps * Config.delta_t) t && Qle_bool t Config.t_max)
                && Qle_bool 0 (shifted t) && Qle_bool (shifted t) Config.delta_t)
                (linspace 0 Config.t_max 1000) = true) by (vm_compute; reflexivity).
  rewrite forallb_forall in H. apply Forall_forall. intros t Hin.
  apply list_elem_of_In, H in Hin.
  apply andb_true_iff in Hin as [Hin H3]. apply andb_true_iff in Hin as [H1 H2].
  apply Qle_bool_iff in H2, H3. split; [|split; assumption].
  apply orb_true_iff in H1 as [H1|H1].
  - left. now apply Qeq_bool_iff.
  - right. apply andb_true_iff in H1 as [Ha Hb].
    apply Qle_bool_iff in Ha, Hb. split; assumption.
Qed.

Lemma time_plot_length : length (linspace 0 Config.t_max 1000) = 1000%nat.
Proof. unfold linspace. now rewrite length_map, length_seq. Qed.

(** The evaluation of the restored model over the times of the plot. *)
Lemma restore_eval (mn : MultiNetwork) (h : gmap Loc Weights) :
  attrs mn !! "delta_t" = Some (VFloat Config.delta_t) ->
  (forall i, 0 <= i < Config.n_intervals -> is_Some (worker mn h i)) ->
  (forall w t, exists row, net_eval w [t] = Ok [row]) ->
  exists rows,
    eval net_eval mn h (linspace 0 Config.t_max 1000) = Ok rows
    /\ Forall2 (fun t row => exists w, worker mn h (route t) = Some w
                                       /\ net_eval w [shifted t] = Ok [row])
               (linspace 0 Config.t_max 1000) rows.
Proof.
  intros Hd Hw Hnet. apply eval_ok_rows; [exact Hd| |].
  - intros E. pose proof time_plot_length as Hl. rewrite E in Hl. discriminate.
  - eapply Forall_impl; [exact time_plot_routed|]. intros t [Ht _].
    destruct (Hw _ (route_in_range t Ht)) as [w Hwk].
    destruct (Hnet w (shifted t)) as [row Hrow]. eauto.
Qed.

(** What the restoring branch logs once the model is read and evaluated. *)
Lemma restore_branch_log (s : St) (mn : MultiNetwork) (h : gmap Loc Weights)
    (rows : list (list Q)) :
  spfile_read = Ok (mn, h) ->
  eval net_eval mn h (linspace 0 Config.t_max 1000) = Ok rows ->
  exists later,
    trace (fst (restore_branch s)) = later ++ EvMultiEval rows :: EvRead :: trace s
    /\ heap (fst (restore_branch s)) = h
    /\ multi_net (fst (restore_branch s)) = mn
    /\ (forall e, snd (restore_branch s) = Raise e ->
          exists op tl, later = EvRaise op e :: tl
                        /\ (op = OpReadCsv \/ exists name, op = OpSavefig name))
    /\ (snd (restore_branch s) = Ok tt ->
          later = [EvSavefig "./Bioreactor_ODE_PINN_Volume_Comparison.png";
                   EvSavefig "./Bioreactor_ODE_PINN_Concentration_Comparison.png";
                   EvReadCsv]).
Proof.
  intros Hread Heval. unfold restore_branch. rewrite Hread. cbv zeta.
  rewrite Heval.
  destruct (read_csv "Bioreactor_ODEs.csv") as [[]|e]; st_simpl.
  2:{ eexists [_]. split; [reflexivity|]. split; [reflexivity|].
      split; [reflexivity|]. split; [|discriminate].
      intros e' E. injection E as <-. eauto. }
  destruct (savefig "./Bioreactor_ODE_PINN_Concentration_Comparison.png" rows)
    as [[]|e]; st_simpl.
  2:{ eexists [_; _]. split; [reflexivity|]. split; [reflexivity|].
      split; [reflexivity|]. split; [|discriminate].
      intros e' E. injection E as <-. eauto 6. }
  destruct (savefig "./Bioreactor_ODE_PINN_Volume_Comparison.png" rows)
    as [[]|e]; st_simpl.
  2:{ eexists [_; _; _]. split; [reflexivity|]. split; [reflexivity|].
      split; [reflexivity|]. split; [|discriminate].
      intros e' E. injection E as <-. eauto 6. }
  eexists [_; _; _]. split; [reflexivity|]. split; [reflexivity|].
  split; [reflexivity|]. split; [discriminate|reflexivity].
Qed.

(** X16: the restoring branch on a model that has [delta_t = 1] and the
    sub-networks [worker_0 .. worker_71], each returning one row per time:
    the evaluation over the 1000 times of the plot does not raise.  Every
    time is routed to an existing sub-network and passed on as a local time
    in [[0, delta_t]], and the result has 1000 rows in the order of the
    times.  The branch works on the model it read, not on the one of the
    state it started in. *)
Theorem restore_branch_plots (s : St) (mn : MultiNetwork) (h : gmap Loc Weights) :
  spfile_read = Ok (mn, h) ->
  attrs mn !! "delta_t" = Some (VFloat Config.delta_t) ->
  (forall i, 0 <= i < Config.n_intervals -> is_Some (worker mn h i)) ->
  (forall w t, exists row, net_eval w [t] = Ok [row]) ->
  exists rows later,
    eval net_eval mn h (linspace 0 Config.t_max 1000) = Ok rows
    /\ length rows = 1000%nat
    /\ (forall (k : nat) (t : Q), linspace 0 Config.t_max 1000 !! k = Some t ->
          0 <= route t < Config.n_intervals
          /\ (0 <= shifted t)%Q /\ (shifted t <= Config.delta_t)%Q
          /\ exists w row, rows !! k = Some row
                           /\ worker mn h (route t) = Some w
                           /\ net_eval w [shifted t] = Ok [row])
    /\ trace (fst (restore_branch s)) = later ++ EvMultiEval rows :: EvRead :: trace s
    /\ heap (fst (restore_branch s)) = h
    /\ multi_net (fst (restore_branch s)) = mn.
Proof.
  intros Hread Hd Hw Hnet.
  destruct (restore_eval mn h Hd Hw Hnet) as (rows & Hev & HF).
  destruct (restore_branch_log s mn h rows Hread Hev)
    as (later & Hlog & Hheap & Hmn & _).
  exists rows, later. split; [exact Hev|]. split.
  { apply Forall2_length in HF. rewrite <- HF. apply time_plot_length. }
  split; [|split; [exact Hlog|split; [exact Hheap|exact Hmn]]].
  intros k t Hk.
  pose proof time_plot_routed as Hall. rewrite Forall_lookup in Hall.
  destruct (Hall k t Hk) as (Ht & Hs0 & Hs1).
  split; [now apply route_in_range|]. split; [exact Hs0|]. split; [exact Hs1|].
  destruct (Forall2_lookup_l _ _ _ _ _ HF Hk) as (row & Hrow & w & Hwk & He).
  eauto.
Qed.

(** X17: training followed by restoring.  When [SPFile.read] gives back the
    model that a completed training run saved, the rows plotted by the
    restoring branch are, for each of the 1000 times [t], the output at the
    local time of [t] of the network that the L-BFGS fit of the interval
    [route t] returned. *)
Theorem train_then_restore (argv_train : option string) (st s : St) :
  script argv_train initial = (st, Ok tt) ->
  spfile_read = Ok (multi_net st, heap st) ->
  (forall w t, exists row, net_eval w [t] = Ok [row]) ->
  exists rows later,
    trace (fst (restore_branch s)) = later ++ EvMultiEval rows :: EvRead :: trace s
    /\ length rows = 1000%nat
    /\ forall (k : nat) (t : Q), linspace 0 Config.t_max 1000 !! k = Some t ->
         exists net p w1 w2 row,
           0 <= route t < Config.n_intervals
           /\ EvLbfgsFit (route t) net p w1 w2 ∈ trace st
           /\ lbfgs_fit w1 time_grid p = Ok w2
           /\ net_eval w2 [shifted t] = Ok [row]
           /\ rows !! k = Some row.
Proof.
  intros Hrun Hread Hnet.
  destruct (script_outcome argv_train) as (st1 & r & Hrun' & Hout).
  rewrite Hrun in Hrun'. injection Hrun' as <- <-. clear Hrun.
  pose proof (outcome_wf _ _ Hout) as Hwf.
  simpl in Hout. destruct Hout as (st' & [_ _ _ _ _ Hreg _ _] & _ & ->).
  st_simpl.
  assert (Hslot : forall i, 0 <= i < Config.n_intervals ->
            exists p w1 w2,
              worker (multi_net st') (heap st') i = Some w2
              /\ EvLbfgsFit i (loc_of i) p w1 w2 ∈ EvWrite :: trace st'
              /\ lbfgs_fit w1 time_grid p = Ok w2).
  { intros i Hi. destruct (reg_trained _ _ Hreg i Hi) as (p & w1 & w2 & H1 & _ & H3 & H4).
    exists p, w1, w2. split; [unfold worker; now rewrite H1|].
    split; [apply elem_of_cons; now right|].
    apply list_elem_of_split in H4 as (l1 & l2 & Hsplit). rewrite Hsplit in Hwf.
    change (wf_trace ((EvWrite :: l1) ++ EvLbfgsFit i (loc_of i) p w1 w2 :: l2)) in Hwf.
    apply wf_trace_split in Hwf.
    destruct (wf_lbfgs_inv _ _ _ _ _ _ Hwf) as (w0 & tl & _ & _ & _ & Hfit & _).
    exact Hfit. }
  clear Hwf.
  destruct (restore_eval (multi_net st') (heap st')) as (rows & Hev & HF).
  { apply (reg_delta_t _ _ Hreg). }
  { intros i Hi. destruct (Hslot i Hi) as (p & w1 & w2 & H & _). rewrite H.
    eexists. reflexivity. }
  { exact Hnet. }
  destruct (restore_branch_log s _ _ rows Hread Hev) as (later & Hlog & _).
  exists rows, later. split; [exact Hlog|]. split.
  { apply Forall2_length in HF. rewrite <- HF. apply time_plot_length. }
  intros k t Hk.
  pose proof time_plot_routed as Hall. rewrite Forall_lookup in Hall.
  destruct (Hall k t Hk) as (Ht & _).
  pose proof (route_in_range t Ht) as Hr.
  destruct (Forall2_lookup_l _ _ _ _ _ HF Hk) as (row & Hrow & w & Hwk & He).
  destruct (Hslot _ Hr) as (p & w1 & w2 & Hw2 & Hin & Hfit).
  rewrite Hw2 in Hwk. injection Hwk as <-.
  exists (loc_of (route t)), p, w1, w2, row. auto.
Qed.

(** X18: one pass through the body of the loop, from any state in which
    [net_] refers to an existing object.  When the two fits, the evaluation
    and the loading of the state dict return, the pass returns and leaves:
    the ADAM optimizer in the state its fit returned (the optimizer object is
    shared by all intervals), [state_t] equal to the last evaluated row, the
    trained object registered in slot [i] and holding the parameters the
    L-BFGS fit returned, and [net_] referring to a new object that holds the
    loaded copy; nothing else in the store changes. *)
Theorem train_interval_effect (i : Z) (s : St) (w0 w1 w2 w' : Weights)
    (o' : OptState) (rows : list (list Q)) (row : list Q) :
  let net := net_ s in
  let fresh := next_loc s in
  let params := mkLossParams net [[0%Q]] [state_t s] [1; 1; 1; 1] 5e8%Q in
  heap s !! net = Some w0 ->
  net <> fresh ->
  adam_fit (optimizer s) w0 time_grid (Decay.Epoch_Decay i) params = Ok (o', w1) ->
  lbfgs_fit w1 time_grid params = Ok w2 ->
  net_eval w2 time_grid = Ok rows ->
  last rows = Some row ->
  load_state_dict (init_weights fresh) (state_dict w2) = Ok w' ->
  train_interval i s
  = (mkSt (<[fresh := w']> (<[net := w2]> (heap s))) (S fresh) o' row fresh
          (set_network (multi_net s) net i)
          (EvSetNetwork i net :: EvLoadStateDict i fresh net w2 w' :: EvModel fresh
           :: EvEval i net w2 time_grid rows :: EvLbfgsFit i net params w1 w2
           :: EvAdamFit i net (Decay.Epoch_Decay i) params w0 w1 :: trace s),
     Ok tt).
Proof.
  intros net fresh params Hlive Hne Hadam Hlbfgs Heval Hlast Hload.
  subst net fresh params.
  unfold train_interval, bind, optimizer_fit, optimizer_lbfgs_fit, network_eval,
    last_row, model, new_network, copy_state_dict, register, deref, bind.
  rewrite Hlive. st_simpl. rewrite Hadam. st_simpl.
  rewrite lookup_insert_eq. rewrite Hlbfgs. st_simpl.
  rewrite lookup_insert_eq. rewrite Heval. st_simpl.
  rewrite Hlast. st_simpl.
  rewrite lookup_insert_ne by congruence. rewrite lookup_insert_eq. st_simpl.
  rewrite lookup_insert_eq. rewrite Hload. st_simpl.
  rewrite !insert_insert_eq. reflexivity.
Qed.

End Script.

Arguments EvModel {Weights} net.
Arguments EvSubModel {Weights} net.
Arguments EvAdamFit {Weights} i op n_epochs params w_in w_out.
Arguments EvLbfgsFit {Weights} i op params w_in w_out.
Arguments EvEval {Weights} i net w input_data approximated_data.
Arguments EvLoadStateDict {Weights} i dst src w_src w_dst.
Arguments EvSetNetwork {Weights} i net.
Arguments EvWrite {Weights}.
Arguments EvRaise {Weights} op e.
Arguments EvRead {Weights}.
Arguments EvMultiEval {Weights} approximated_data_plot.
Arguments EvReadCsv {Weights}.
Arguments EvSavefig {Weights} name.
Arguments trace {Weights OptState} s.
Arguments heap {Weights OptState} s.
Arguments multi_net {Weights OptState} s.
Arguments initial {Weights OptState} optimizer0.
Arguments trained_intervals {Weights} tr.
Arguments registered_intervals {Weights} tr.
Arguments next_loc {Weights OptState} s.
Arguments net_ {Weights OptState} s.

(** * A concrete framework

    Networks whose parameters are a counter of the fits they went through;
    loading a state dict copies the counter.  In [toy_run] every operation
    succeeds; in [toy_run_lbfgs_fails] the L-BFGS fit raises for every network
    but the first one, so that the script stops in interval 1. *)
Module Toy.

Definition init_weights (l : Loc) : nat := 0%nat.

Definition adam_fit (o : unit) (w : nat) (input_data : list Q) (n_epochs : Z)
    (params : LossParams) : result (unit * nat) :=
  Ok (o, S w).

Definition lbfgs_fit (w : nat) (input_data : list Q) (params : LossParams)
  : result nat :=
  Ok (S w).

Definition lbfgs_fit_failing (w : nat) (input_data : list Q) (params : LossParams)
  : result nat :=
  if Nat.eqb (residual params) 0 then Ok (S w)
  else Raise (LibraryError "abnormal termination in line search").

Definition net_eval (w : nat) (input_data : list Q) : result (list (list Q)) :=
  Ok (map (fun t => [inject_Z (Z.of_nat w); Qred t]) input_data).

Definition state_dict (w : nat) : nat := w.

Definition load_state_dict (w : nat) (sd : nat) : result nat := Ok sd.

Definition spfile_write (mn : MultiNetwork) (h : gmap Loc nat) : result unit := Ok tt.

Definition spfile_read : result (MultiNetwork * gmap Loc nat) :=
  Raise (LibraryError "no such directory").

Definition read_csv (name : string) : result unit :=
  Raise (LibraryError "no such file").

Definition savefig (name : string) (data : list (list Q)) : result unit := Ok tt.

End Toy.

Abbreviation toy_run argv_train :=
  (script nat unit nat Toy.init_weights Toy.adam_fit Toy.lbfgs_fit Toy.net_eval
     Toy.state_dict Toy.load_state_dict Toy.spfile_write Toy.spfile_read
     Toy.read_csv Toy.savefig argv_train (initial tt)).

Abbreviation toy_run_lbfgs_fails argv_train :=
  (script nat unit nat Toy.init_weights Toy.adam_fit Toy.lbfgs_fit_failing
     Toy.net_eval Toy.state_dict Toy.load_state_dict Toy.spfile_write
     Toy.spfile_read Toy.read_csv Toy.savefig argv_train (initial tt)).




(** What the two runs look like from outside. *)
Example toy_run_completes : snd (toy_run None) = Ok tt.
Proof. vm_compute. reflexivity. Qed.

Example toy_run_fails :
  snd (toy_run_lbfgs_fails None)
  = Raise (LibraryError "abnormal termination in line search")
  /\ registered_intervals (trace (fst (toy_run_lbfgs_fails None))) = [0].
Proof. split; vm_compute; reflexivity. Qed.

Lemma initial_state_handoff_witness :
  exists later earlier op n p w0 w1,
    trace (fst (toy_run_lbfgs_fails None))
    = later ++ EvAdamFit 1 op n p w0 w1 :: earlier
    /\ initial_state p = [[2%Q; 1%Q]]
    /\ (0 <= 1 < Config.n_intervals
        /\ Config.state_t0 = [0.05; 0.00; 10.00; 1.00]%Q
        /\ (1 = 0 -> initial_state p = [Config.state_t0])
        /\ (1 <= 1 ->
            exists prev w_prev rows row p' w_in tl,
              earlier = EvSetNetwork (1 - 1) prev
                        :: EvLoadStateDict (1 - 1) op prev w_prev w0 :: EvModel op
                        :: EvEval (1 - 1) prev w_prev time_grid rows
                        :: EvLbfgsFit (1 - 1) prev p' w_in w_prev :: tl
              /\ Toy.lbfgs_fit_failing w_in time_grid p' = Ok w_prev
              /\ Toy.net_eval w_prev time_grid = Ok rows
              /\ last rows = Some row
              /\ initial_state p = [row])
        /\ (forall next, last later = Some next ->
              (exists w2, next = EvLbfgsFit 1 op p w1 w2)
              \/ (exists e, next = EvRaise (OpLbfgs 1) e))).
Proof.
  eexists [_], _, _, _, _, _, _.
  split; [vm_compute; reflexivity|].
  split; [vm_compute; reflexivity|].
  eapply (initial_state_handoff nat unit nat Toy.init_weights tt Toy.adam_fit
           Toy.lbfgs_fit_failing Toy.net_eval Toy.state_dict Toy.load_state_dict
           Toy.spfile_write Toy.spfile_read Toy.read_csv Toy.savefig None).
  vm_compute. reflexivity.
Defined.

Lemma warm_start_witness :
  exists later earlier op n p w0 w1,
    (forall w sd w', Toy.load_state_dict w sd = Ok w' -> Toy.state_dict w' = sd)
    /\ 1 <= 1
    /\ trace (fst (toy_run_lbfgs_fails None))
       = later ++ EvAdamFit 1 op n p w0 w1 :: earlier
    /\ (exists o o', Toy.adam_fit o w0 time_grid n p = Ok (o', w1))
    /\ exists prev w_prev rows p' w_in tl,
         earlier = EvSetNetwork (1 - 1) prev
                   :: EvLoadStateDict (1 - 1) op prev w_prev w0 :: EvModel op
                   :: EvEval (1 - 1) prev w_prev time_grid rows
                   :: EvLbfgsFit (1 - 1) prev p' w_in w_prev :: tl
         /\ op <> prev
         /\ Toy.lbfgs_fit_failing w_in time_grid p' = Ok w_prev
         /\ Toy.load_state_dict (Toy.init_weights op) (Toy.state_dict w_prev) = Ok w0
         /\ Toy.state_dict w0 = Toy.state_dict w_prev.
Proof.
  eexists [_], _, _, _, _, _, _.
  assert (Hcopy : forall w sd w', Toy.load_state_dict w sd = Ok w' -> Toy.state_dict w' = sd).
  { intros w sd w' H. injection H as <-. reflexivity. }
  split; [exact Hcopy|]. split; [lia|].
  split; [vm_compute; reflexivity|].
  eapply (warm_start nat unit nat Toy.init_weights tt Toy.adam_fit
           Toy.lbfgs_fit_failing Toy.net_eval Toy.state_dict Toy.load_state_dict
           Toy.spfile_write Toy.spfile_read Toy.read_csv Toy.savefig None
           [_] _ 1 _ _ _ _ _ Hcopy); [lia|].
  vm_compute. reflexivity.
Defined.

Lemma training_phases_ordered_witness :
  exists e earlier,
    trace (fst (toy_run_lbfgs_fails None)) = [] ++ EvRaise (OpLbfgs 1) e :: earlier
    /\ exists op p w0 w1 tl o o',
         earlier = EvAdamFit 1 op (Decay.Epoch_Decay 1) p w0 w1 :: tl
         /\ Toy.adam_fit o w0 time_grid (Decay.Epoch_Decay 1) p = Ok (o', w1)
         /\ Toy.lbfgs_fit_failing w1 time_grid p = Raise e.
Proof.
  eexists _, _.
  split; [vm_compute; reflexivity|].
  refine (proj1 (proj2
    (training_phases_ordered nat unit nat Toy.init_weights tt Toy.adam_fit
       Toy.lbfgs_fit_failing Toy.net_eval Toy.state_dict Toy.load_state_dict
       Toy.spfile_write Toy.spfile_read Toy.read_csv Toy.savefig None
       [] _ _ _)) 1 _ eq_refl).
  vm_compute. reflexivity.
Defined.

Lemma exceptions_propagate_witness :
  exists e earlier,
    trace (fst (toy_run_lbfgs_fails None)) = [] ++ EvRaise (OpLbfgs 1) e :: earlier
    /\ snd (toy_run_lbfgs_fails None) = Raise e
    /\ registered_intervals (trace (fst (toy_run_lbfgs_fails None)))
       = seqZ 0 (op_interval (OpLbfgs 1)).
Proof.
  eexists _, _.
  split; [vm_compute; reflexivity|].
  pose proof (proj1 (exceptions_propagate nat unit nat Toy.init_weights tt Toy.adam_fit
       Toy.lbfgs_fit_failing Toy.net_eval Toy.state_dict Toy.load_state_dict
       Toy.spfile_write Toy.spfile_read Toy.read_csv Toy.savefig None)
       [] _ (OpLbfgs 1) _ ltac:(vm_compute; reflexivity)) as H.
  split; [exact (proj1 (proj2 H))|exact (proj1 (proj2 (proj2 (proj2 H))))].
Defined.

Lemma training_loop_complete_witness :
  let st := fst (toy_run None) in
  toy_run None = (st, Ok tt)
  /\ trained_intervals (trace st) = seqZ 0 Config.n_intervals
  /\ registered_intervals (trace st) = seqZ 0 Config.n_intervals
  /\ (forall i, 0 <= i < Config.n_intervals ->
        exists net p w0 w1 w2,
          getattr (multi_net st) (worker_name i) = Ok (VNet net)
          /\ modules (multi_net st) !! worker_name i = Some net
          /\ worker (multi_net st) (heap st) i = Some w2
          /\ EvAdamFit i net (Decay.Epoch_Decay i) p w0 w1 ∈ trace st
          /\ EvLbfgsFit i net p w1 w2 ∈ trace st).
Proof.
  cbv zeta.
  assert (Hs : snd (toy_run None) = Ok tt) by (vm_compute; reflexivity).
  set (st := fst (toy_run None)).
  assert (Hrun : toy_run None = (st, Ok tt)).
  { subst st. revert Hs. destruct (toy_run None) as [st r]. simpl.
    intros ->. reflexivity. }
  clearbody st. clear Hs.
  split; [exact Hrun|].
  pose proof (training_loop_complete nat unit nat Toy.init_weights tt Toy.adam_fit
       Toy.lbfgs_fit Toy.net_eval Toy.state_dict Toy.load_state_dict
       Toy.spfile_write Toy.spfile_read Toy.read_csv Toy.savefig None
       st Hrun) as H.
  clear Hrun.
  split; [exact (proj1 (proj2 H))|].
  split; [exact (proj1 (proj2 (proj2 H)))|].
  exact (proj1 (proj2 (proj2 (proj2 (proj2 H))))).
Defined.

(** The registry after the complete run: slot 5 holds the object trained in
    interval 5, which went through one ADAM and one L-BFGS fit more than the
    network it was copied from. *)
Example toy_registry :
  worker (multi_net (fst (toy_run None))) (heap (fst (toy_run None))) 5 = Some 12%nat
  /\ modules (multi_net (fst (toy_run None))) !! worker_name 5 = Some 77%nat.
Proof. split; vm_compute; reflexivity. Qed.

(** ** The further properties on the concrete framework *)

Lemma script_completes_witness : exists st, toy_run None = (st, Ok tt).
Proof.
  refine (script_completes nat unit nat Toy.init_weights tt Toy.adam_fit
            Toy.lbfgs_fit Toy.net_eval Toy.state_dict Toy.load_state_dict
            Toy.spfile_write Toy.spfile_read Toy.read_csv Toy.savefig None
            _ _ _ _ _).
  - intros o w n p. eexists. reflexivity.
  - intros w p. eexists. reflexivity.
  - intros w. eexists. split; [reflexivity|]. vm_compute. discriminate.
  - intros w sd. eexists. reflexivity.
  - intros mn h. reflexivity.
Defined.

Lemma final_objects_witness :
  let st := fst (toy_run None) in
  toy_run None = (st, Ok tt)
  /\ next_loc st = 145%nat
  /\ is_Some (heap st !! net_ st).
Proof.
  cbv zeta.
  assert (Hs : snd (toy_run None) = Ok tt) by (vm_compute; reflexivity).
  set (st := fst (toy_run None)).
  assert (Hrun : toy_run None = (st, Ok tt)).
  { subst st. revert Hs. destruct (toy_run None) as [st r]. simpl.
    intros ->. reflexivity. }
  clearbody st. clear Hs.
  split; [exact Hrun|].
  pose proof (final_objects nat unit nat Toy.init_weights tt Toy.adam_fit
       Toy.lbfgs_fit Toy.net_eval Toy.state_dict Toy.load_state_dict
       Toy.spfile_write Toy.spfile_read Toy.read_csv Toy.savefig None
       st Hrun) as H.
  clear Hrun.
  split; [exact (proj1 H)|exact (proj1 (proj2 (proj2 (proj2 H))))].
Defined.

Lemma save_once_last_witness :
  let st := fst (toy_run None) in
  toy_run None = (st, Ok tt)
  /\ exists net tl,
       trace st = EvWrite :: EvSetNetwork (Config.n_intervals - 1) net :: tl
       /\ (EvWrite ∉ tl).
Proof.
  cbv zeta.
  assert (Hs : snd (toy_run None) = Ok tt) by (vm_compute; reflexivity).
  set (st := fst (toy_run None)).
  assert (Hrun : toy_run None = (st, Ok tt)).
  { subst st. revert Hs. destruct (toy_run None) as [st r]. simpl.
    intros ->. reflexivity. }
  clearbody st. clear Hs.
  split; [exact Hrun|].
  destruct (save_once_last nat unit nat Toy.init_weights tt Toy.adam_fit
       Toy.lbfgs_fit Toy.net_eval Toy.state_dict Toy.load_state_dict
       Toy.spfile_write Toy.spfile_read Toy.read_csv Toy.savefig None
       st Hrun) as (net & tl & H1 & H2 & _).
  clear Hrun. exists net, tl. split; assumption.
Defined.

Lemma restore_branch_plots_witness :
  exists rows,
    eval Demo.echo Demo.multi_net Demo.heap (linspace 0 Config.t_max 1000) = Ok rows
    /\ length rows = 1000%nat.
Proof.
  destruct (restore_branch_plots Z unit Demo.echo (Ok (Demo.multi_net, Demo.heap))
              (fun _ => Ok tt) (fun _ _ => Ok tt) (initial tt)
              Demo.multi_net Demo.heap eq_refl Demo_delta_t)
    as (rows & later & H1 & H2 & _).
  - intros i Hi. rewrite (Demo_workers i Hi). eexists. reflexivity.
  - intros w t. eexists. reflexivity.
  - exists rows. split; assumption.
Defined.

Lemma train_then_restore_witness :
  let st := fst (toy_run None) in
  exists rows later,
    trace (fst (restore_branch nat unit Toy.net_eval (Ok (multi_net st, heap st))
                  Toy.read_csv Toy.savefig (initial tt)))
    = later ++ EvMultiEval rows :: EvRead :: trace (initial tt)
    /\ length rows = 1000%nat.
Proof.
  cbv zeta.
  assert (Hs : snd (toy_run None) = Ok tt) by (vm_compute; reflexivity).
  set (st := fst (toy_run None)).
  assert (Hrun : toy_run None = (st, Ok tt)).
  { subst st. revert Hs. destruct (toy_run None) as [st r]. simpl.
    intros ->. reflexivity. }
  clearbody st. clear Hs.
  rewrite script_is_train_branch in Hrun.
  assert (Hrun' :
    script nat unit nat Toy.init_weights Toy.adam_fit Toy.lbfgs_fit Toy.net_eval
      Toy.state_dict Toy.load_state_dict Toy.spfile_write
      (Ok (multi_net st, heap st)) Toy.read_csv Toy.savefig None (initial tt)
    = (st, Ok tt)).
  { rewrite script_is_train_branch. exact Hrun. }
  clear Hrun.
  destruct (train_then_restore nat unit nat Toy.init_weights tt Toy.adam_fit
              Toy.lbfgs_fit Toy.net_eval Toy.state_dict Toy.load_state_dict
              Toy.spfile_write (Ok (multi_net st, heap st)) Toy.read_csv
              Toy.savefig None st (initial tt) Hrun' eq_refl)
    as (rows & later & H1 & H2 & _).
  - intros w t. eexists. reflexivity.
  - clear Hrun'. exists rows, later. split; assumption.
Defined.

Lemma train_interval_effect_witness :
  let s := mkSt nat unit {[0%nat := 0%nat]} 1%nat tt Config.state_t0 0%nat
             (mkMultiNetwork ∅ ∅) [] in
  exists s',
    train_interval nat unit nat Toy.init_weights Toy.adam_fit Toy.lbfgs_fit
      Toy.net_eval Toy.state_dict Toy.load_state_dict 0 s = (s', Ok tt)
    /\ net_ s' = 1%nat
    /\ heap s' !! 0%nat = Some 2%nat.
Proof.
  cbv zeta. eexists. split.
  - refine (train_interval_effect nat unit nat Toy.init_weights Toy.adam_fit
              Toy.lbfgs_fit Toy.net_eval Toy.state_dict Toy.load_state_dict 0
              (mkSt nat unit {[0%nat := 0%nat]} 1%nat tt Config.state_t0 0%nat
                 (mkMultiNetwork ∅ ∅) [])
              0%nat 1%nat 2%nat 2%nat tt _ [2%Q; 1%Q] _ _ _ _ _ _ _).
    + reflexivity.
    + discriminate.
    + reflexivity.
    + reflexivity.
    + reflexivity.
    + vm_compute. reflexivity.
    + reflexivity.
  - split; [reflexivity|]. vm_compute. reflexivity.
Defined.
